(** * Supermart grocery dashboard: the aggregation callbacks of [app.py]

    The Dash callbacks [update_sales_dashboard], [update_region_analysis],
    [update_category_analysis] and [display_page] are embedded as functions
    of the loaded data frame [df] and of the control values.  A data frame is
    the list of its rows, in file order.  A figure is represented by the data
    series handed to plotly, an exception by [None]; styling is left out.

    Numbers.  The Sales and the Profit column each have a numpy dtype, which
    [read_csv] infers from the file: [int64], whose sums wrap around, or
    [float64], whose operations round.  The callbacks are written once, over
    the interface [Dtype]; the two dtypes are its instances.  Quotients are
    always [float64], a value of IEEE 754 binary64 as specified by
    [SpecFloat]. *)

From Stdlib Require Import ZArith SpecFloat.
From stdpp Require Import base numbers option list strings gmap sorting.

Local Open Scope Z_scope.

(** ** float64 *)

Abbreviation float64 := spec_float.

Global Instance float64_eq_dec : EqDecision float64.
Proof. solve_decision. Defined.

Definition fadd : float64 → float64 → float64 := SFadd 53 1024.
Definition fsub : float64 → float64 → float64 := SFsub 53 1024.
Definition fmul : float64 → float64 → float64 := SFmul 53 1024.
Definition fdiv : float64 → float64 → float64 := SFdiv 53 1024.
Definition fleb : float64 → float64 → bool := SFleb.
Definition fltb : float64 → float64 → bool := SFltb.
Definition feqb : float64 → float64 → bool := SFeqb.

Definition fzero : float64 := S754_zero false.
Definition pinf : float64 := S754_infinity false.

Definition is_nan (x : float64) : bool :=
  match x with S754_nan => true | _ => false end.

Definition is_finite (x : float64) : bool :=
  match x with S754_zero _ | S754_finite _ _ _ => true | _ => false end.

(** The float nearest to an integer, as in the conversion of an [int64]. *)
Definition float_of_Z (z : Z) : float64 := binary_normalize 53 1024 z 0 false.

(** The float nearest to [a / b], as a decimal literal of the file is read. *)
Definition float_of_ratio (a b : Z) : float64 := fdiv (float_of_Z a) (float_of_Z b).

(** ** dtypes *)

(** What the callbacks use of the dtype of a numeric column. *)
Class Dtype (A : Type) := {
  dtype_eq_dec :: EqDecision A;
  (** [0] *)
  dzero : A;
  (** [s.sum()] on a column *)
  series_sum : list A → A;
  (** the sum of one group in [groupby(...).agg('sum')] *)
  group_sum : list A → A;
  (** the operand of a true division *)
  to_float : A → float64;
  (** [x > 0] *)
  is_positive : A → bool;
  (** [x == 0] *)
  is_zero : A → bool;
  (** [x <= y] *)
  dleb : A → A → bool;
  (** [isna(x)] *)
  is_na : A → bool
}.

(** [int64]: a signed 64-bit integer, kept as the integer it stands for. *)
Definition int64 := Z.

Definition wrap64 (z : Z) : int64 := (z + 2 ^ 63) `mod` 2 ^ 64 - 2 ^ 63.

Definition int64_add (x y : int64) : int64 := wrap64 (x + y).

(** The sum of integers, as integers. *)
Definition exact_sum (l : list Z) : Z := foldr Z.add 0 l.

Global Instance int64_Dtype : Dtype int64 := {|
  dzero := 0;
  series_sum := foldl int64_add 0;
  group_sum := foldl int64_add 0;
  to_float := float_of_Z;
  is_positive x := 0 <? x;
  is_zero x := x =? 0;
  dleb := Z.leb;
  is_na _ := false
|}.

(** [float64].  [Series.sum] replaces NaN by 0 and hands the column to
    numpy, which adds fewer than 8 values from left to right, up to 128
    values in 8 interleaved partial sums, and longer columns by halves; the
    result is added onto the initial 0 of the reduction. *)
Definition nan_to_zero (x : float64) : float64 := if is_nan x then fzero else x.

Fixpoint add_blocks (fuel : nat) (r rest : list float64)
    : list float64 * list float64 :=
  match fuel with
  | O => (r, rest)
  | Datatypes.S fuel' =>
      if (8 <=? length rest)%nat
      then add_blocks fuel' (zip_with fadd r (take 8 rest)) (drop 8 rest)
      else (r, rest)
  end.

Definition sum8 (r : list float64) : float64 :=
  match r with
  | [r0; r1; r2; r3; r4; r5; r6; r7] =>
      fadd (fadd (fadd r0 r1) (fadd r2 r3)) (fadd (fadd r4 r5) (fadd r6 r7))
  | _ => S754_nan
  end.

Fixpoint pairwise_sum (fuel : nat) (a : list float64) : float64 :=
  let n := length a in
  if (n <? 8)%nat then foldl fadd (S754_zero true) a
  else
    match fuel with
    | O => S754_nan
    | Datatypes.S fuel' =>
        if (n <=? 128)%nat then
          let rr := add_blocks n (take 8 a) (drop 8 a) in
          foldl fadd (sum8 rr.1) rr.2
        else
          let n2 := (n / 2 - (n / 2) mod 8)%nat in
          fadd (pairwise_sum fuel' (take n2 a)) (pairwise_sum fuel' (drop n2 a))
    end.

Definition numpy_sum (l : list float64) : float64 :=
  fadd fzero (pairwise_sum (length l) (nan_to_zero <$> l)).

(** The grouped sum is pandas' own loop, with Kahan's compensation; it
    skips NaN. *)
Definition kahan_step (st : float64 * float64) (val : float64) : float64 * float64 :=
  if is_nan val then st
  else
    let y := fsub val st.2 in
    let t := fadd st.1 y in
    let c := fsub (fsub t st.1) y in
    (t, if is_nan c then fzero else c).

Definition kahan_sum (l : list float64) : float64 :=
  (foldl kahan_step (fzero, fzero) l).1.

Global Instance float64_Dtype : Dtype float64 := {|
  dzero := fzero;
  series_sum := numpy_sum;
  group_sum := kahan_sum;
  to_float x := x;
  is_positive x := fltb fzero x;
  is_zero x := feqb x fzero;
  dleb := fleb;
  is_na := is_nan
|}.

(** ** Dates *)

Record date := Date { year : Z; month : Z; day : Z }.

Global Instance date_eq_dec : EqDecision date.
Proof. solve_decision. Defined.

Definition date_compare (a b : date) : comparison :=
  match year a ?= year b with
  | Eq => match month a ?= month b with
          | Eq => day a ?= day b
          | c => c
          end
  | c => c
  end.

(** [a <= b] on timestamps *)
Definition date_leb (a b : date) : bool :=
  match date_compare a b with Gt => false | _ => true end.

(** [a < b] *)
Definition date_ltb (a b : date) : bool :=
  match date_compare a b with Lt => true | _ => false end.

Definition is_leap (y : Z) : bool :=
  ((y mod 4 =? 0) && negb (y mod 100 =? 0)) || (y mod 400 =? 0).

Definition days_in_month (y m : Z) : Z :=
  if m =? 2 then (if is_leap y then 29 else 28)
  else if (m =? 4) || (m =? 6) || (m =? 9) || (m =? 11) then 30
  else 31.

(** Month number on a continuous scale, and the month-end label of a bin. *)
Definition month_index (d : date) : Z := year d * 12 + (month d - 1).

Definition month_end (k : Z) : date :=
  let y := k `div` 12 in
  let m := k `mod` 12 + 1 in
  Date y m (days_in_month y m).

(** ** Columns of strings *)

(** [s.unique()]: the distinct values in order of first appearance *)
Fixpoint unique `{EqDecision A} (l : list A) : list A :=
  match l with
  | [] => []
  | x :: l' => x :: filter (λ y, y ≠ x) (unique l')
  end.

(** [s.nunique()] *)
Definition nunique `{EqDecision A} (l : list A) : nat := length (unique l).

(** [s.isin(values)] *)
Definition isin (values : list string) (s : string) : bool :=
  bool_decide (s ∈ values).

(** Group keys come out sorted ([sort=True] is the default of [groupby]). *)
Class KeyOrder (K : Type) := key_leb : K → K → bool.

Global Instance string_KeyOrder : KeyOrder string := String.leb.
Global Instance Z_KeyOrder : KeyOrder Z := Z.leb.
Global Instance pair_KeyOrder `{KeyOrder A, KeyOrder B, EqDecision A} :
  KeyOrder (A * B) :=
  λ x y, if decide (x.1 = y.1) then key_leb x.2 y.2 else key_leb x.1 y.1.

Definition sort_keys `{KeyOrder K} (l : list K) : list K :=
  merge_sort (λ a b, Is_true (key_leb a b)) l.

(** The position of a column name among the names of a frame. *)
Definition position (name : string) (names : list string) : option nat :=
  fst <$> list_find (λ n, n = name) names.

Section frames.
Context {S P D : Type} `{HS : Dtype S, HP : Dtype P}.

(** ** The data frame *)

Record SalesRecord := {
  Order_Date : date;
  Order_ID : string;
  Region : string;
  Category : string;
  Sub_Category : string;
  Sales : S;
  Profit : P;
  Discount : D
}.

(** [df['Year'] = df['Order Date'].dt.year] and likewise for the month *)
Definition Year (r : SalesRecord) : Z := year (Order_Date r).
Definition Month (r : SalesRecord) : Z := month (Order_Date r).

Abbreviation DataFrame := (list SalesRecord).

(** [df[mask]] *)
Definition boolean_index (mask : SalesRecord → bool) (df : DataFrame) : DataFrame :=
  filter (λ r, mask r) df.

(** [df.groupby(key)]: the groups, by ascending key, each with its rows *)
Definition groupby `{EqDecision K, KeyOrder K}
    (key : SalesRecord → K) (df : DataFrame) : list (K * DataFrame) :=
  (λ k, (k, filter (λ r, key r = k) df)) <$> sort_keys (unique (key <$> df)).

(** The bins of [pd.Grouper(key='Order Date', freq='M')]: one per calendar
    month from the month of the earliest row to the month of the latest one,
    months without rows included; none on an empty frame. *)
Definition month_bins (df : DataFrame) : list Z :=
  match (month_index ∘ Order_Date) <$> df with
  | [] => []
  | k :: ks =>
      let lo := foldr Z.min k ks in
      let hi := foldr Z.max k ks in
      seqZ lo (hi - lo + 1)
  end.

Definition groupby_month (df : DataFrame) : list (date * DataFrame) :=
  (λ k, (month_end k, filter (λ r, month_index (Order_Date r) = k) df))
    <$> month_bins df.

(** ** Aggregated frames *)

(** A cell of an aggregated frame. *)
Inductive cell :=
  | CStr (s : string)
  | CInt (z : Z)
  | CDate (d : date)
  | CSales (x : S)
  | CProfit (x : P)
  | CFloat (x : float64).

Global Instance cell_eq_dec : EqDecision cell.
Proof. solve_decision. Defined.

(** The operand a cell gives to a true division or to a marker size;
    [None] stands for the [TypeError] on strings and dates. *)
Definition cell_to_float (c : cell) : option float64 :=
  match c with
  | CSales x => Some (to_float x)
  | CProfit x => Some (to_float x)
  | CFloat x => Some x
  | CInt z => Some (float_of_Z z)
  | CStr _ | CDate _ => None
  end.

(** [a <= b] within one column *)
Definition cell_leb (a b : cell) : bool :=
  match a, b with
  | CStr x, CStr y => String.leb x y
  | CInt x, CInt y => x <=? y
  | CDate x, CDate y => date_leb x y
  | CSales x, CSales y => dleb x y
  | CProfit x, CProfit y => dleb x y
  | CFloat x, CFloat y => fleb x y
  | _, _ => false
  end.

(** The cells of a group key, one per index column. *)
Class IndexKey (K : Type) := key_cells : K → list cell.

Global Instance string_IndexKey : IndexKey string := λ s, [CStr s].
Global Instance Z_IndexKey : IndexKey Z := λ z, [CInt z].
Global Instance date_IndexKey : IndexKey date := λ d, [CDate d].
Global Instance pair_IndexKey `{IndexKey A, IndexKey B} : IndexKey (A * B) :=
  λ k, key_cells k.1 ++ key_cells k.2.

(** An aggregated frame after [reset_index]: the names of the columns that
    hold the group key, the names of the value columns, and the rows, each
    with its key and its value cells in column order. *)
Record Frame (K : Type) := MkFrame {
  index_names : list string;
  columns : list string;
  rows : list (K * list cell)
}.
Arguments MkFrame {K} _ _ _.
Arguments index_names {K} _.
Arguments columns {K} _.
Arguments rows {K} _.

Definition has_column {K} (f : Frame K) (c : string) : bool :=
  bool_decide (c ∈ index_names f ++ columns f).

(** [row[c]] for a row of [f] *)
Definition get `{IndexKey K} (f : Frame K) (c : string) (row : K * list cell)
    : option cell :=
  match position c (index_names f) with
  | Some i => key_cells row.1 !! i
  | None => i ← position c (columns f); row.2 !! i
  end.

(** [g.agg({c: 'sum', ...}).reset_index()] for groups [g] keyed by [names] *)
Definition agg_sum {K} (names : list string)
    (cols : list (string * (DataFrame → cell))) (g : list (K * DataFrame)) : Frame K :=
  {| index_names := names;
     columns := cols.*1;
     rows := (λ kg, (kg.1, (λ c, c.2 kg.2) <$> cols)) <$> g |}.

Definition sum_Sales (g : DataFrame) : cell := CSales (group_sum (Sales <$> g)).
Definition sum_Profit (g : DataFrame) : cell := CProfit (group_sum (Profit <$> g)).

Definition sales_profit : list (string * (DataFrame → cell)) :=
  [("Sales", sum_Sales); ("Profit", sum_Profit)].

Definition sales_only : list (string * (DataFrame → cell)) := [("Sales", sum_Sales)].

(** [(profit / sales) * 100] *)
Definition margin_of (profit sales : float64) : float64 :=
  fmul (fdiv profit sales) (float_of_Z 100).

(** [frame['Margin'] = (frame['Profit'] / frame['Sales']) * 100]; [None]
    stands for the [KeyError] of a missing column and the [TypeError] of a
    column that cannot be divided. *)
Definition set_margin `{IndexKey K} (f : Frame K) : option (Frame K) :=
  if has_column f "Profit" && has_column f "Sales" then
    rows' ← mapM (λ row,
               p ← get f "Profit" row ≫= cell_to_float;
               s ← get f "Sales" row ≫= cell_to_float;
               Some (row.1, row.2 ++ [CFloat (margin_of p s)])) (rows f);
    Some {| index_names := index_names f;
            columns := columns f ++ ["Margin"];
            rows := rows' |}
  else None.

(** The data of [px.line(frame, x=<key>, y=y)] and of [px.bar]: the key and
    the [y] cell of every row.  Plotly raises when [y] names no column of
    the frame, whether the frame has rows or not. *)
Definition xy_series `{IndexKey K} (y : string) (f : Frame K) : option (list (K * cell)) :=
  if has_column f y
  then mapM (λ row, v ← get f y row; Some (row.1, v)) (rows f)
  else None.

(** [frame.head(n)] *)
Definition head {K} (n : nat) (f : Frame K) : Frame K :=
  {| index_names := index_names f; columns := columns f; rows := take n (rows f) |}.

(** ** The sales dashboard callback *)

Record SalesDashboard := {
  total_sales : S;
  total_profit : P;
  avg_profit_margin : float64;
  order_count : nat;
  monthly_data : Frame date;
  sales_fig : list (date * cell);
  profit_fig : list (date * cell);
  (** (discount, sales, category) of every filtered row *)
  discount_fig : list (D * S * string)
}.

Definition in_window (start_date end_date : date) (r : SalesRecord) : bool :=
  date_leb start_date (Order_Date r) && date_leb (Order_Date r) end_date.

Definition update_sales_dashboard (df : DataFrame) (start_date end_date : date)
    : option SalesDashboard :=
  let filtered_df := boolean_index (in_window start_date end_date) df in
  let total_sales := series_sum (Sales <$> filtered_df) in
  let total_profit := series_sum (Profit <$> filtered_df) in
  let avg_profit_margin :=
    if is_positive total_sales
    then margin_of (to_float total_profit) (to_float total_sales)
    else fzero in
  let order_count := nunique (Order_ID <$> filtered_df) in
  let monthly_data :=
    agg_sum ["Order Date"] sales_profit (groupby_month filtered_df) in
  sales_fig ← xy_series "Sales" monthly_data;
  profit_fig ← xy_series "Profit" monthly_data;
  let discount_fig := (λ r, (Discount r, Sales r, Category r)) <$> filtered_df in
  Some {| total_sales := total_sales;
          total_profit := total_profit;
          avg_profit_margin := avg_profit_margin;
          order_count := order_count;
          monthly_data := monthly_data;
          sales_fig := sales_fig;
          profit_fig := profit_fig;
          discount_fig := discount_fig |}.

(** ** The regional analysis callback *)

(** The values of the metric selector (the [RadioItems] options). *)
Definition region_metric_options : list string := ["Sales"; "Profit"; "Margin"].

Record ScatterPoint := {
  sp_region : string;
  sp_year : Z;
  sp_sales : cell;
  sp_profit : cell;
  sp_margin : float64
}.

Record RegionAnalysis := {
  region_data : Frame string;
  bar_title : string;
  bar_fig : list (string * cell);
  regional_perf : Frame (string * Z);
  scatter_fig : list ScatterPoint
}.

(** Plotly accepts a marker size that is a number not below 0, infinity
    included, and raises [ValueError] on a negative one and on NaN. *)
Definition valid_marker_size (m : float64) : bool := fleb fzero m.

(** [px.scatter(frame, x='Sales', y='Profit', color='Region', size='Margin',
    hover_data=['Year'])] *)
Definition scatter_point (f : Frame (string * Z)) (row : string * Z * list cell)
    : option ScatterPoint :=
  s ← get f "Sales" row;
  p ← get f "Profit" row;
  m ← get f "Margin" row ≫= cell_to_float;
  if valid_marker_size m
  then Some {| sp_region := row.1.1; sp_year := row.1.2;
               sp_sales := s; sp_profit := p; sp_margin := m |}
  else None.

Definition scatter_series (f : Frame (string * Z)) : option (list ScatterPoint) :=
  if forallb (has_column f) ["Sales"; "Profit"; "Region"; "Margin"; "Year"]
  then mapM (scatter_point f) (rows f)
  else None.

Definition update_region_analysis (df : DataFrame) (metric : string)
    : option RegionAnalysis :=
  region_data ← set_margin (agg_sum ["Region"] sales_profit (groupby Region df));
  let bar_title :=
    if decide (metric = "Margin") then "Profit Margin (%) by Region"
    else "Total " +:+ metric +:+ " by Region" in
  bar_fig ← xy_series metric region_data;
  regional_perf ←
    set_margin (agg_sum ["Region"; "Year"] sales_profit
                  (groupby (λ r, (Region r, Year r)) df));
  scatter_fig ← scatter_series regional_perf;
  Some {| region_data := region_data;
          bar_title := bar_title;
          bar_fig := bar_fig;
          regional_perf := regional_perf;
          scatter_fig := scatter_fig |}.

(** ** The category analysis callback *)

Record CategoryAnalysis := {
  category_data : Frame string;
  category_fig : list (string * cell);
  subcategory_data : Frame (string * string);
  subcategory_fig : list (string * string * cell);
  treemap_data : Frame (string * string);
  treemap_fig : list (string * string * cell)
}.

Abbreviation SubRow := (string * string * list cell)%type.

Section category.
(** The ordering step of [frame.sort_values(by, ascending=False)]: the rows
    rearranged by the cell that [by] selects.  The call leaves [kind] at its
    default, for which pandas promises a sorted rearrangement of the rows and
    no more.  The function is a parameter here; its contract is
    [sort_values_spec] below, and [nargsort_desc] is what pandas does, up to
    the order of rows of equal value. *)
Variable sort_rows_desc : (SubRow → option cell) → list SubRow → list SubRow.

(** [frame.sort_values(by, ascending=False)]; [None] is the [KeyError] *)
Definition sort_values_desc (by_ : string) (f : Frame (string * string))
    : option (Frame (string * string)) :=
  if has_column f by_
  then Some {| index_names := index_names f;
               columns := columns f;
               rows := sort_rows_desc (get f by_) (rows f) |}
  else None.

(** The body of the callback after the rows have been selected. *)
Definition category_analysis (filtered_df : DataFrame) : option CategoryAnalysis :=
  let category_data :=
    agg_sum ["Category"] sales_profit (groupby Category filtered_df) in
  category_fig ← xy_series "Sales" category_data;
  let subcategory_data :=
    agg_sum ["Category"; "Sub Category"] sales_only
      (groupby (λ r, (Category r, Sub_Category r)) filtered_df) in
  sorted ← sort_values_desc "Sales" subcategory_data;
  let subcategory_data := head 10 sorted in
  subcategory_fig ← xy_series "Sales" subcategory_data;
  let treemap_data :=
    agg_sum ["Category"; "Sub Category"] sales_only
      (groupby (λ r, (Category r, Sub_Category r)) filtered_df) in
  treemap_fig ← xy_series "Sales" treemap_data;
  Some {| category_data := category_data;
          category_fig := category_fig;
          subcategory_data := subcategory_data;
          subcategory_fig := subcategory_fig;
          treemap_data := treemap_data;
          treemap_fig := treemap_fig |}.

Definition update_category_analysis (df : DataFrame) (categories : list string)
    : option CategoryAnalysis :=
  let filtered_df := boolean_index (λ r, isin categories (Category r)) df in
  category_analysis filtered_df.
End category.

(** ** Sorting by a column *)

(** [isna] of a cell *)
Definition cell_is_na (c : cell) : bool :=
  match c with
  | CSales x => is_na x
  | CProfit x => is_na x
  | CFloat x => is_nan x
  | _ => false
  end.

(** Row [a] may stand before row [b] in a list sorted by the cell that [key]
    selects, descending, missing values last. *)
Definition desc_by {R} (key : R → option cell) (a b : R) : bool :=
  match key a, key b with
  | Some x, Some y => cell_is_na y || cell_leb y x
  | _, _ => false
  end.

(** What [frame.sort_values(by, ascending=False)] promises of the rows of its
    result with the default [kind]: the rows of [frame], rearranged so that
    column [by] descends.  The order of rows with equal values is left
    open. *)
Definition sort_values_spec
    (sort : (SubRow → option cell) → list SubRow → list SubRow)
    (by_ : string) (f : Frame (string * string)) : Prop :=
  sort (get f by_) (rows f) ≡ₚ rows f ∧
  Sorted (λ a b, Is_true (desc_by (get f by_) a b)) (sort (get f by_) (rows f)).

(** The ordering step as pandas' [nargsort] performs it: the rows with a
    missing value go last, in their order; the other rows are sorted by
    descending value.  Where rows of equal value end up is decided inside
    numpy's [argsort(kind='quicksort')], which makes no promise about it;
    [tie_rank] stands for that decision: among rows of equal value, the row
    of lower rank comes first. *)
Definition row_is_na {R} (key : R → option cell) (r : R) : bool :=
  match key r with
  | Some c => cell_is_na c
  | None => true
  end.

Definition goes_before {R} (rank : R → nat) (key : R → option cell) (a b : R) : bool :=
  match key a, key b with
  | Some x, Some y =>
      if cell_leb y x
      then (if cell_leb x y then (rank a <=? rank b)%nat else true)
      else false
  | _, _ => true
  end.

Fixpoint insert_row {R} (before : R → R → bool) (x : R) (l : list R) : list R :=
  match l with
  | [] => [x]
  | y :: l' => if before x y then x :: y :: l' else y :: insert_row before x l'
  end.

Definition nargsort_desc {R} (tie_rank : list R → R → nat)
    (key : R → option cell) (l : list R) : list R :=
  foldr (insert_row (goes_before (tie_rank l) key)) []
        (filter (λ r, row_is_na key r = false) l)
  ++ filter (λ r, row_is_na key r = true) l.

(** Two ways to place rows of equal value: in the order of the input, as a
    stable sort does, and in the opposite order. *)
Definition input_rank `{EqDecision R} (l : list R) (r : R) : nat :=
  from_option fst (length l) (list_find (λ x, x = r) l).

Definition reverse_rank `{EqDecision R} (l : list R) (r : R) : nat :=
  (length l - input_rank l r)%nat.

(** ** Initial values of the controls *)

Definition date_min (a b : date) : date := if date_leb a b then a else b.
Definition date_max (a b : date) : date := if date_leb a b then b else a.

(** [df['Order Date'].min()] and [.max()]; [None] stands for the [NaT] of
    an empty column. *)
Definition min_date (df : DataFrame) : option date :=
  match Order_Date <$> df with
  | [] => None
  | d :: ds => Some (foldr date_min d ds)
  end.

Definition max_date (df : DataFrame) : option date :=
  match Order_Date <$> df with
  | [] => None
  | d :: ds => Some (foldr date_max d ds)
  end.

(** The [start_date] and [end_date] the date picker starts with. *)
Definition initial_date_range (df : DataFrame) : option (date * date) :=
  s ← min_date df; e ← max_date df; Some (s, e).

(** The [value] the category dropdown starts with. *)
Definition initial_categories (df : DataFrame) : list string :=
  unique (Category <$> df).

(** ** Vocabulary of the statements *)

(** Chronological order, written out. *)
Definition date_le (a b : date) : Prop :=
  year a < year b ∨
  (year a = year b ∧ (month a < month b ∨ (month a = month b ∧ day a ≤ day b))).

Definition date_lt (a b : date) : Prop :=
  year a < year b ∨
  (year a = year b ∧ (month a < month b ∨ (month a = month b ∧ day a < day b))).

Global Instance date_le_dec a b : Decision (date_le a b).
Proof. unfold date_le. apply _. Defined.
Global Instance date_lt_dec a b : Decision (date_lt a b).
Proof. unfold date_lt. apply _. Defined.

(** The order date of [r] lies in the window, both ends included. *)
Definition in_window_spec (start_date end_date : date) (r : SalesRecord) : Prop :=
  date_le start_date (Order_Date r) ∧ date_le (Order_Date r) end_date.

(** The month of the order date is a calendar month, as it is for every
    timestamp. *)
Definition valid_month (r : SalesRecord) : Prop := 1 ≤ Month r ≤ 12.

(** Four zeros and empty series. *)
Definition empty_dashboard : SalesDashboard :=
  {| total_sales := dzero; total_profit := dzero; avg_profit_margin := fzero;
     order_count := 0%nat;
     monthly_data := MkFrame ["Order Date"] ["Sales"; "Profit"] [];
     sales_fig := []; profit_fig := []; discount_fig := [] |}.

(** The rows the category callback keeps, and their sums per (category,
    sub-category). *)
Definition selected (df : DataFrame) (categories : list string) : DataFrame :=
  boolean_index (λ r, isin categories (Category r)) df.

Definition by_subcategory (r : SalesRecord) : string * string :=
  (Category r, Sub_Category r).

Definition subcategory_sums (filtered_df : DataFrame) : Frame (string * string) :=
  agg_sum ["Category"; "Sub Category"] sales_only (groupby by_subcategory filtered_df).

(** The ten first rows of the frame of sub-category sums as [sort] leaves
    it. *)
Definition top10 (sort : (SubRow → option cell) → list SubRow → list SubRow)
    (filtered_df : DataFrame) : Frame (string * string) :=
  head 10 {| index_names := ["Category"; "Sub Category"];
             columns := ["Sales"];
             rows := sort (get (subcategory_sums filtered_df) "Sales")
                          (rows (subcategory_sums filtered_df)) |}.

Definition empty_category_analysis : CategoryAnalysis :=
  {| category_data := MkFrame ["Category"] ["Sales"; "Profit"] [];
     category_fig := [];
     subcategory_data := MkFrame ["Category"; "Sub Category"] ["Sales"] [];
     subcategory_fig := [];
     treemap_data := MkFrame ["Category"; "Sub Category"] ["Sales"] [];
     treemap_fig := [] |}.

(** The columns of the regional frame. *)
Definition region_columns : list string := ["Region"; "Sales"; "Profit"; "Margin"].

(** The margin of the rows [g] of one group. *)
Definition group_margin (g : DataFrame) : float64 :=
  margin_of (to_float (group_sum (Profit <$> g))) (to_float (group_sum (Sales <$> g))).

(** The cell a bar of the regional chart shows for the rows [g] of a region. *)
Definition region_bar (metric : string) (g : DataFrame) : cell :=
  if decide (metric = "Sales") then sum_Sales g
  else if decide (metric = "Profit") then sum_Profit g
  else CFloat (group_margin g).

(** Rows of [out] with equal cells stand in the order in which [grouped]
    has them. *)
Definition ties_in_grouping_order {R} (key : R → option cell) (out grouped : list R)
    : Prop :=
  ∀ i j a b, out !! i = Some a → out !! j = Some b → (i < j)%nat →
    key a = key b →
    ∃ i' j', grouped !! i' = Some a ∧ grouped !! j' = Some b ∧ (i' < j')%nat.



(** The margin column of a row is the unguarded quotient of the sums of the
    rows of [df] with the key of the row: not finite, hence not 0, whenever
    the summed sales are 0. *)
Definition unguarded_margin `{EqDecision K, IndexKey K}
    (key_of : SalesRecord → K) (df : DataFrame) (f : Frame K) (row : K * list cell)
    : Prop :=
  let g := filter (λ r, key_of r = row.1) df in
  g ≠ [] ∧
  get f "Margin" row = Some (CFloat (group_margin g)) ∧
  (feqb (to_float (group_sum (Sales <$> g))) fzero = true →
     is_finite (group_margin g) = false).

(** The (region, year) group of every row has a margin that plotly accepts
    as the size of a marker. *)
Definition marker_sizes_valid (df : DataFrame) : Prop :=
  Forall (λ r, Is_true (valid_marker_size (group_margin
            (filter (λ r', (Region r', Year r') = (Region r, Year r)) df)))) df.

Global Instance marker_sizes_valid_dec df : Decision (marker_sizes_valid df).
Proof. unfold marker_sizes_valid. apply _. Defined.

(** A frame of sums with its margin column, and the points of the scatter
    chart, from the groups. *)
Definition margin_frame {K} (names : list string) (g : list (K * DataFrame)) : Frame K :=
  {| index_names := names;
     columns := ["Sales"; "Profit"; "Margin"];
     rows := (λ kg, (kg.1, [sum_Sales kg.2; sum_Profit kg.2;
                            CFloat (group_margin kg.2)])) <$> g |}.

Definition scatter_points (g : list (string * Z * DataFrame)) : list ScatterPoint :=
  (λ kg, {| sp_region := kg.1.1; sp_year := kg.1.2;
            sp_sales := sum_Sales kg.2; sp_profit := sum_Profit kg.2;
            sp_margin := group_margin kg.2 |}) <$> g.

(** The top sub-category frame is short, descending, made of rows of the
    sub-category sums, and keeps equal rows in grouping order. *)
Definition top10_keeps_ties
    (sort : (SubRow → option cell) → list SubRow → list SubRow)
    (df : DataFrame) (categories : list string) : Prop :=
  ∀ d, update_category_analysis sort df categories = Some d →
    (length (rows (subcategory_data d)) ≤ 10)%nat ∧
    Sorted (λ a b, Is_true (desc_by (get (subcategory_data d) "Sales") a b))
           (rows (subcategory_data d)) ∧
    rows (subcategory_data d) ⊆ rows (subcategory_sums (selected df categories)) ∧
    ties_in_grouping_order (get (subcategory_data d) "Sales")
      (rows (subcategory_data d)) (rows (subcategory_sums (selected df categories))).

End frames.

Global Arguments MkFrame {S P K} _ _ _.
Global Arguments index_names {S P K} _.
Global Arguments columns {S P K} _.
Global Arguments rows {S P K} _.

(** The laws of a dtype that the properties below rely on. *)
Class DtypeLaws (A : Type) `{Dtype A} := {
  series_sum_nil : series_sum [] = dzero;
  group_sum_nil : group_sum [] = dzero;
  is_zero_dzero : is_zero dzero = true;
  is_zero_not_positive (x : A) : is_zero x = true → is_positive x = false;
  dleb_not_na (x y : A) : dleb x y = true → is_na x = false ∧ is_na y = false;
  dleb_total (x y : A) :
    is_na x = false → is_na y = false → dleb x y = false → dleb y x = true;
  dleb_trans (x y z : A) : dleb x y = true → dleb y z = true → dleb x z = true
}.

(** A dtype whose sums are exact in its own arithmetic: neither the order of
    the values nor their grouping changes a sum. *)
Class ExactSums (A : Type) `{Dtype A} : Prop := {
  series_sum_Permutation (l l' : list A) : l ≡ₚ l' → series_sum l = series_sum l';
  series_sum_groups (ls : list (list A)) :
    series_sum (group_sum <$> ls) = series_sum (mjoin ls)
}.

(** ** Page layouts, navigation and routing *)

(** The three page layouts; their component trees are not modelled. *)
Inductive Layout := sales_layout | region_layout | category_layout.

Global Instance Layout_eq_dec : EqDecision Layout.
Proof. solve_decision. Defined.

(** The navigation bar: the brand with its link, and the nav links as
    (label, href). *)
Record NavbarSimple := {
  brand : string;
  brand_href : string;
  children : list (string * string)
}.

Definition navbar : NavbarSimple :=
  {| brand := "Supermart Grocery Dashboard";
     brand_href := "/";
     children := [("Sales Dashboard", "/"); ("Regional Analysis", "/region");
                  ("Category Analysis", "/category")] |}.

(** Every link of the bar, the brand first. *)
Definition navbar_links (n : NavbarSimple) : list (string * string) :=
  (brand n, brand_href n) :: children n.

(** [display_page]; the path is [None] as long as the browser has reported
    none. *)
Definition display_page (pathname : option string) : Layout :=
  if decide (pathname = Some "/region") then region_layout
  else if decide (pathname = Some "/category") then category_layout
  else sales_layout.

(** ** Sample data *)

(** Rows of a file whose Sales column holds integers and whose Profit and
    Discount columns hold decimals. *)
Abbreviation SalesRow := (@SalesRecord int64 float64 float64).

(** The two rows of the worked example, a row without sales in another
    region and month, and a second sub-category of the first category. *)
Definition apple_15 : SalesRow :=
  {| Order_Date := Date 2023 1 15; Order_ID := "OrderA"; Region := "South";
     Category := "Fruit"; Sub_Category := "Apple";
     Sales := 100; Profit := float_of_Z 20; Discount := float_of_ratio 1 10 |}.

Definition apple_20 : SalesRow :=
  {| Order_Date := Date 2023 1 20; Order_ID := "OrderA"; Region := "South";
     Category := "Fruit"; Sub_Category := "Apple";
     Sales := 50; Profit := float_of_Z 10; Discount := float_of_ratio 1 20 |}.

Definition kale_free : SalesRow :=
  {| Order_Date := Date 2023 3 2; Order_ID := "OrderB"; Region := "East";
     Category := "Vegetables"; Sub_Category := "Kale";
     Sales := 0; Profit := float_of_Z 5; Discount := float_of_Z 1 |}.

Definition banana_7 : SalesRow :=
  {| Order_Date := Date 2023 2 7; Order_ID := "OrderC"; Region := "West";
     Category := "Fruit"; Sub_Category := "Banana";
     Sales := 150; Profit := float_of_Z 45; Discount := float_of_Z 0 |}.

Definition january : list SalesRow := [apple_15; apple_20].
Definition quarter : list SalesRow := [apple_15; apple_20; kale_free; banana_7].

(** January and March, nothing in February. *)
Definition winter : list SalesRow := [apple_15; kale_free].

(** Two rows whose sales exceed the range of [int64] together. *)
Definition bulk (sales : int64) : SalesRow :=
  {| Order_Date := Date 2023 1 10; Order_ID := "OrderE"; Region := "North";
     Category := "Grain"; Sub_Category := "Rice";
     Sales := sales; Profit := float_of_Z 1; Discount := float_of_Z 0 |}.

Definition bulk_orders : list SalesRow := [bulk 9223372036854775807; bulk 1].

(** A row that sells nothing and earns nothing. *)
Definition giveaway : SalesRow :=
  {| Order_Date := Date 2023 5 5; Order_ID := "OrderF"; Region := "North";
     Category := "Grain"; Sub_Category := "Oats";
     Sales := 0; Profit := float_of_Z 0; Discount := float_of_Z 1 |}.

(** A row whose profit is the largest float. *)
Definition windfall : SalesRow :=
  {| Order_Date := Date 2023 6 6; Order_ID := "OrderG"; Region := "North";
     Category := "Grain"; Sub_Category := "Oats";
     Sales := 1; Profit := S754_finite false 9007199254740991 971;
     Discount := float_of_Z 0 |}.

(** Twenty sub-categories of one category, each with one row: those with an
    even number sell 50 each, the others less, each a different amount. *)
Definition snack (sub_category : string) (sales : int64) : SalesRow :=
  {| Order_Date := Date 2023 4 1; Order_ID := "OrderD"; Region := "North";
     Category := "Snacks"; Sub_Category := sub_category;
     Sales := sales; Profit := float_of_Z 1; Discount := float_of_Z 0 |}.

Definition snacks : list SalesRow :=
  [snack "S01" 1; snack "S02" 50; snack "S03" 3; snack "S04" 50;
   snack "S05" 5; snack "S06" 50; snack "S07" 7; snack "S08" 50;
   snack "S09" 9; snack "S10" 50; snack "S11" 11; snack "S12" 50;
   snack "S13" 13; snack "S14" 50; snack "S15" 15; snack "S16" 50;
   snack "S17" 17; snack "S18" 50; snack "S19" 19; snack "S20" 50].

(** Rows of a file whose Sales column holds decimals: one large sale in
    January in the East, two small ones in February in the West. *)
Abbreviation FloatRow := (@SalesRecord float64 float64 float64).

Definition wholesale (order_date : date) (region : string) (sales : Z) : FloatRow :=
  {| Order_Date := order_date; Order_ID := "OrderH"; Region := region;
     Category := "Grain"; Sub_Category := "Rice";
     Sales := float_of_Z sales; Profit := float_of_Z sales;
     Discount := float_of_Z 0 |}.

Definition wholesale_orders : list FloatRow :=
  [wholesale (Date 2023 1 15) "East" 9007199254740992;
   wholesale (Date 2023 2 10) "West" 1;
   wholesale (Date 2023 2 20) "West" 1].

(** * Properties *)

(** ** The two dtypes obey the laws *)

Global Instance int64_laws : DtypeLaws int64.
Proof.
  split; try done.
  - intros x Hx. apply Z.eqb_eq in Hx as ->. done.
  - intros x y _ _ Hxy. apply Z.leb_gt in Hxy. apply Z.leb_le. lia.
  - intros x y z Hxy Hyz. apply Z.leb_le in Hxy, Hyz. apply Z.leb_le. lia.
Qed.

Lemma SFcompare_antisym (x y : float64) (c : comparison) :
  SFcompare x y = Some c → SFcompare y x = Some (CompOpp c).
Proof.
  destruct x as [sx|sx| |sx mx ex], y as [sy|sy| |sy my ey]; simpl;
    try (intros [= <-]; by repeat case_match).
  intros [= <-]. f_equal.
  change (Pcompare mx my Eq) with (mx ?= my)%positive.
  change (Pcompare my mx Eq) with (my ?= mx)%positive.
  rewrite (Z.compare_antisym ey ex), (Pos.compare_antisym my mx).
  destruct sx, sy; simpl; try done; destruct (ey ?= ex); simpl; try done;
    by destruct (my ?= mx)%positive.
Qed.

Lemma fleb_not_nan (x y : float64) :
  fleb x y = true → is_nan x = false ∧ is_nan y = false.
Proof. by destruct x, y. Qed.

Lemma fleb_total (x y : float64) :
  is_nan x = false → is_nan y = false → fleb x y = false → fleb y x = true.
Proof.
  intros Hx Hy. unfold fleb, SFleb.
  destruct (SFcompare x y) as [c|] eqn:Hc.
  - rewrite (SFcompare_antisym _ _ _ Hc). by destruct c.
  - by destruct x, y.
Qed.

(** The order of the floats other than NaN, read off a triple of integers
    ordered lexicographically. *)
Lemma fleb_key (x y : float64) :
  let key (x : float64) : Z * Z * Z :=
    match x with
    | S754_nan => (3, 0, 0)
    | S754_infinity true => (-2, 0, 0)
    | S754_infinity false => (2, 0, 0)
    | S754_zero _ => (0, 0, 0)
    | S754_finite true m e => (-1, - e, - Z.pos m)
    | S754_finite false m e => (1, e, Z.pos m)
    end in
  fleb x y = true ↔
  is_nan x = false ∧ is_nan y = false ∧
  ((key x).1.1 < (key y).1.1 ∨
   ((key x).1.1 = (key y).1.1 ∧
    ((key x).1.2 < (key y).1.2 ∨
     ((key x).1.2 = (key y).1.2 ∧ (key x).2 ≤ (key y).2)))).
Proof.
  unfold fleb, SFleb.
  destruct x as [sx|sx| |sx mx ex], y as [sy|sy| |sy my ey]; simpl;
    repeat match goal with s : bool |- _ => destruct s end; simpl;
    try (split; [intros; try done; repeat split; try done; lia
                |intros (? & ? & ?); try done; lia]).
  all: change (Pcompare mx my Eq) with (mx ?= my)%positive;
    destruct (Z.compare_spec ex ey); simpl;
    try destruct (Pos.compare_spec mx my); simpl;
    (split; [intros; try done; repeat split; try done; lia
            |intros (? & ? & ?); try done; lia]).
Qed.

Lemma fleb_trans (x y z : float64) :
  fleb x y = true → fleb y z = true → fleb x z = true.
Proof.
  rewrite !fleb_key. intros (? & ? & ?) (? & ? & ?).
  repeat split; try done. lia.
Qed.

Global Instance float64_laws : DtypeLaws float64.
Proof.
  split; try done.
  - intros x Hx. by destruct x as [[]|[]| |[]].
  - apply fleb_not_nan.
  - apply fleb_total.
  - apply fleb_trans.
Qed.

(** ** Columns of strings *)

Lemma elem_of_unique `{EqDecision A} (l : list A) (x : A) : x ∈ unique l ↔ x ∈ l.
Proof.
  induction l as [|y l IH]; csimpl; [done|].
  rewrite !elem_of_cons, list_elem_of_filter, IH.
  destruct (decide (x = y)); tauto.
Qed.

Lemma NoDup_unique `{EqDecision A} (l : list A) : NoDup (unique l).
Proof.
  induction l as [|y l IH]; csimpl; [constructor|].
  constructor; [|by apply NoDup_filter].
  rewrite list_elem_of_filter. by intros [Hne _].
Qed.

Lemma nunique_size `{Countable A} (l : list A) :
  nunique l = size (list_to_set l : gset A).
Proof.
  unfold nunique.
  rewrite <-(size_list_to_set (C:=gset A) (unique l)) by apply NoDup_unique.
  f_equal. apply set_eq. intros x.
  by rewrite !elem_of_list_to_set, elem_of_unique.
Qed.


(** ** Dates *)

Lemma date_leb_le a b : date_leb a b = true ↔ date_le a b.
Proof.
  unfold date_leb, date_le, date_compare.
  destruct (Z.compare_spec (year a) (year b));
    destruct (Z.compare_spec (month a) (month b));
    destruct (Z.compare_spec (day a) (day b)); split; (done || lia).
Qed.

Lemma date_ltb_lt a b : date_ltb a b = true ↔ date_lt a b.
Proof.
  unfold date_ltb, date_lt, date_compare.
  destruct (Z.compare_spec (year a) (year b));
    destruct (Z.compare_spec (month a) (month b));
    destruct (Z.compare_spec (day a) (day b)); split; (done || lia).
Qed.

Lemma date_lt_not_le a b : date_lt a b → ¬ date_le b a.
Proof. unfold date_lt, date_le. lia. Qed.

Lemma date_le_trans a b c : date_le a b → date_le b c → date_le a c.
Proof. unfold date_le. lia. Qed.

Lemma date_le_refl a : date_le a a.
Proof. unfold date_le. lia. Qed.

Lemma date_leb_false a b : date_leb a b = false → date_le b a.
Proof.
  unfold date_leb, date_le, date_compare.
  destruct (Z.compare_spec (year a) (year b));
    destruct (Z.compare_spec (month a) (month b));
    destruct (Z.compare_spec (day a) (day b)); (done || lia).
Qed.

(** ** Lists *)

Ltac not_a_name :=
  let Hin := fresh "Hin" in
  intros Hin;
  repeat (apply elem_of_cons in Hin as [Hin|Hin]; [discriminate Hin|]);
  by apply elem_of_nil in Hin.

Lemma mapM_fmap_Some {A B C} (f : B → option C) (h : A → B) (g : A → C) (l : list A) :
  (∀ x, f (h x) = Some (g x)) → mapM f (h <$> l) = Some (g <$> l).
Proof.
  intros Hf. induction l as [|x l IH]; [done|].
  rewrite !fmap_cons. cbn [mapM]. rewrite Hf, IH. done.
Qed.

Lemma filter_ext_in {A} (φ ψ : A → Prop) `{∀ x, Decision (φ x), ∀ x, Decision (ψ x)}
    (l : list A) :
  (∀ x, x ∈ l → φ x ↔ ψ x) → filter φ l = filter ψ l.
Proof.
  induction l as [|x l IH]; intros Hext; [done|].
  rewrite !filter_cons.
  assert (Hx : φ x ↔ ψ x) by (apply Hext; left).
  rewrite IH by (intros y Hy; apply Hext; by right).
  destruct (decide (φ x)), (decide (ψ x)); tauto.
Qed.

Lemma filter_none {A} (φ : A → Prop) `{∀ x, Decision (φ x)} (l : list A) :
  Forall (λ x, ¬ φ x) l → filter φ l = [].
Proof.
  induction 1 as [|x l Hx _ IH]; [done|].
  rewrite filter_cons, decide_False by done. done.
Qed.

Lemma filter_all {A} (φ : A → Prop) `{∀ x, Decision (φ x)} (l : list A) :
  Forall φ l → filter φ l = l.
Proof.
  induction 1 as [|x l Hx _ IH]; [done|].
  rewrite filter_cons, decide_True by done. by rewrite IH.
Qed.

Lemma mjoin_cons {A} (l : list A) (ls : list (list A)) : mjoin (l :: ls) = l ++ mjoin ls.
Proof. done. Qed.

(** The groups of a list by a key, taken over keys that are distinct and
    include the key of every element, hold every element once. *)
Lemma mjoin_groups_cons {A K} `{EqDecision K} (key : A → K) (x : A) (l : list A)
    (ks : list K) :
  NoDup ks →
  mjoin ((λ k, filter (λ r, key r = k) (x :: l)) <$> ks) ≡ₚ
  (if decide (key x ∈ ks) then [x] else []) ++
  mjoin ((λ k, filter (λ r, key r = k) l) <$> ks).
Proof.
  induction 1 as [|k ks Hk Hnd IH]; [done|].
  rewrite !fmap_cons, !mjoin_cons, IH, filter_cons.
  destruct (decide (key x = k)) as [<-|Hne].
  - rewrite decide_False by done. rewrite decide_True by left. done.
  - destruct (decide (key x ∈ ks)) as [Hin|Hin].
    + rewrite decide_True by (by right). cbn [app].
      by rewrite <-Permutation_middle.
    + rewrite decide_False; [done|]. rewrite elem_of_cons. tauto.
Qed.

Lemma mjoin_groups {A K} `{EqDecision K} (key : A → K) (l : list A) (ks : list K) :
  NoDup ks → (∀ r, r ∈ l → key r ∈ ks) →
  mjoin ((λ k, filter (λ r, key r = k) l) <$> ks) ≡ₚ l.
Proof.
  intros Hnd. induction l as [|x l IH]; intros Hks.
  - clear. induction ks as [|k ks IH]; [done|]. by rewrite fmap_cons, mjoin_cons, IH.
  - rewrite mjoin_groups_cons by done.
    rewrite decide_True by (apply Hks; left).
    rewrite IH by (intros r Hr; apply Hks; by right). done.
Qed.

(** ** Sums of integers *)

(** Addition modulo 2^64 is exact in its own terms: a sum of [int64] values
    is the sum of the integers, wrapped once. *)
Lemma wrap64_add_l (a b : Z) : wrap64 (wrap64 a + b) = wrap64 (a + b).
Proof.
  unfold wrap64. change (2 ^ 63) with 9223372036854775808.
  change (2 ^ 64) with 18446744073709551616.
  Z.div_mod_to_equations. lia.
Qed.

Lemma wrap64_add_r (a b : Z) : wrap64 (a + wrap64 b) = wrap64 (a + b).
Proof. by rewrite Z.add_comm, wrap64_add_l, Z.add_comm. Qed.

Lemma exact_sum_Permutation (l l' : list Z) : l ≡ₚ l' → exact_sum l = exact_sum l'.
Proof. unfold exact_sum. induction 1; csimpl; lia. Qed.

Lemma exact_sum_app (l l' : list Z) : exact_sum (l ++ l') = exact_sum l + exact_sum l'.
Proof. unfold exact_sum. induction l; csimpl; lia. Qed.

Lemma int64_sum_wrap (acc : Z) (l : list int64) :
  wrap64 (foldl int64_add acc l) = wrap64 (acc + exact_sum l).
Proof.
  revert acc. induction l as [|x l IH]; intros acc; csimpl.
  - f_equal. unfold exact_sum. simpl. lia.
  - rewrite IH. unfold int64_add. rewrite wrap64_add_l. f_equal.
    unfold exact_sum. simpl. lia.
Qed.

Lemma int64_sum_in_range (l : list int64) :
  foldl int64_add 0 l = wrap64 (foldl int64_add 0 l).
Proof.
  destruct l as [|x l _] using rev_ind; [done|].
  rewrite foldl_app. cbn [foldl]. unfold int64_add at 1 3.
  unfold wrap64. change (2 ^ 63) with 9223372036854775808.
  change (2 ^ 64) with 18446744073709551616.
  Z.div_mod_to_equations. lia.
Qed.

Lemma int64_sum_exact (l : list int64) : foldl int64_add 0 l = wrap64 (exact_sum l).
Proof. by rewrite int64_sum_in_range, int64_sum_wrap. Qed.

Global Instance int64_exact : ExactSums int64.
Proof.
  split.
  - intros l l' Hp. cbn [series_sum int64_Dtype].
    by rewrite !int64_sum_exact, (exact_sum_Permutation _ _ Hp).
  - intros ls. cbn [series_sum group_sum int64_Dtype]. rewrite !int64_sum_exact.
    induction ls as [|l ls IH]; [done|].
    rewrite fmap_cons, mjoin_cons, exact_sum_app.
    change (exact_sum (?x :: ?l)) with (x + exact_sum l).
    rewrite int64_sum_exact, wrap64_add_l.
    rewrite <-(wrap64_add_r (exact_sum l) (exact_sum (mjoin ls))), <-IH.
    by rewrite wrap64_add_r.
Qed.

Lemma mjoin_fmap {A B} (f : A → B) (ls : list (list A)) :
  mjoin (fmap f <$> ls) = f <$> mjoin ls.
Proof.
  induction ls as [|l ls IH]; [done|].
  by rewrite !fmap_cons, !mjoin_cons, fmap_app, IH.
Qed.

Section properties.
Context {S P D : Type} `{HS : Dtype S, HP : Dtype P}.
Context `{!DtypeLaws S, !DtypeLaws P}.

Local Abbreviation DataFrame := (list (@SalesRecord S P D)).
Local Abbreviation SalesRecord := (@SalesRecord S P D).
Local Abbreviation SubRow := (string * string * list (@cell S P))%type.

Implicit Types (df : DataFrame) (r : SalesRecord).

Lemma in_window_iff s e r : in_window s e r ↔ in_window_spec s e r.
Proof.
  unfold in_window, in_window_spec.
  rewrite andb_True, !Is_true_true, !date_leb_le. done.
Qed.

Lemma boolean_index_in_window s e df :
  boolean_index (in_window s e) df = filter (in_window_spec s e) df.
Proof. apply list_filter_iff. intros r. apply in_window_iff. Qed.

Lemma boolean_index_all (mask : SalesRecord → bool) df :
  Forall (λ r, mask r = true) df → boolean_index mask df = df.
Proof.
  intros Hall. unfold boolean_index. apply filter_all.
  eapply Forall_impl; [exact Hall|]. intros r ->. done.
Qed.

Lemma boolean_index_none (mask : SalesRecord → bool) df :
  Forall (λ r, mask r = false) df → boolean_index mask df = [].
Proof.
  intros Hall. unfold boolean_index. apply filter_none.
  eapply Forall_impl; [exact Hall|]. intros r -> [].
Qed.

(** ** Aggregated frames in closed form *)

Lemma position_None (c : string) (names : list string) :
  c ∉ names → position c names = None.
Proof.
  intros Hc. unfold position.
  destruct (list_find _ names) as [[i n]|] eqn:Hf; [|done].
  apply list_find_Some in Hf as (Hi & -> & _). by apply list_elem_of_lookup_2 in Hi.
Qed.

Lemma agg_sum_sales_profit {K} (names : list string) (g : list (K * DataFrame)) :
  agg_sum names sales_profit g =
  MkFrame names ["Sales"; "Profit"] ((λ kg, (kg.1, [sum_Sales kg.2; sum_Profit kg.2])) <$> g).
Proof. done. Qed.

Lemma agg_sum_sales_only {K} (names : list string) (g : list (K * DataFrame)) :
  agg_sum names sales_only g =
  MkFrame names ["Sales"] ((λ kg, (kg.1, [sum_Sales kg.2])) <$> g).
Proof. done. Qed.

Lemma xy_series_Sales {K} `{!IndexKey (S:=S) (P:=P) K} (names : list string)
    (g : list (K * DataFrame)) :
  "Sales" ∉ names →
  xy_series "Sales" (agg_sum names sales_profit g) =
  Some ((λ kg, (kg.1, sum_Sales kg.2)) <$> g).
Proof.
  intros Hne. rewrite agg_sum_sales_profit. unfold xy_series, has_column.
  cbn [index_names columns rows].
  rewrite bool_decide_eq_true_2 by (rewrite elem_of_app, !elem_of_cons; tauto).
  apply mapM_fmap_Some. intros kg. unfold get. cbn [index_names columns].
  by rewrite (position_None _ _ Hne).
Qed.

Lemma xy_series_Profit {K} `{!IndexKey (S:=S) (P:=P) K} (names : list string)
    (g : list (K * DataFrame)) :
  "Profit" ∉ names →
  xy_series "Profit" (agg_sum names sales_profit g) =
  Some ((λ kg, (kg.1, sum_Profit kg.2)) <$> g).
Proof.
  intros Hne. rewrite agg_sum_sales_profit. unfold xy_series, has_column.
  cbn [index_names columns rows].
  rewrite bool_decide_eq_true_2 by (rewrite elem_of_app, !elem_of_cons; tauto).
  apply mapM_fmap_Some. intros kg. unfold get. cbn [index_names columns].
  by rewrite (position_None _ _ Hne).
Qed.

Lemma xy_series_Sales_only {K} `{!IndexKey (S:=S) (P:=P) K} (names : list string)
    (g : list (K * DataFrame)) :
  "Sales" ∉ names →
  xy_series "Sales" (agg_sum names sales_only g) =
  Some ((λ kg, (kg.1, sum_Sales kg.2)) <$> g).
Proof.
  intros Hne. rewrite agg_sum_sales_only. unfold xy_series, has_column.
  cbn [index_names columns rows].
  rewrite bool_decide_eq_true_2 by (rewrite elem_of_app, !elem_of_cons; tauto).
  apply mapM_fmap_Some. intros kg. unfold get. cbn [index_names columns].
  by rewrite (position_None _ _ Hne).
Qed.

(** The result of the callback in closed form. *)
Lemma update_sales_dashboard_eq df (s e : date) :
  let f := boolean_index (in_window s e) df in
  update_sales_dashboard df s e =
  Some {| total_sales := series_sum (Sales <$> f);
          total_profit := series_sum (Profit <$> f);
          avg_profit_margin :=
            if is_positive (series_sum (Sales <$> f))
            then margin_of (to_float (series_sum (Profit <$> f)))
                           (to_float (series_sum (Sales <$> f)))
            else fzero;
          order_count := nunique (Order_ID <$> f);
          monthly_data := agg_sum ["Order Date"] sales_profit (groupby_month f);
          sales_fig := (λ kg, (kg.1, sum_Sales kg.2)) <$> groupby_month f;
          profit_fig := (λ kg, (kg.1, sum_Profit kg.2)) <$> groupby_month f;
          discount_fig := (λ r, (Discount r, Sales r, Category r)) <$> f |}.
Proof.
  intros f. unfold update_sales_dashboard. fold f.
  rewrite xy_series_Sales, xy_series_Profit by not_a_name. done.
Qed.

(** ** Monthly bins *)

Lemma foldr_min_max_bound (k : Z) (ks : list Z) (x : Z) :
  x = k ∨ x ∈ ks → foldr Z.min k ks ≤ x ≤ foldr Z.max k ks.
Proof.
  induction ks as [|a ks IH]; csimpl.
  - intros [->|Hx]; [lia|]. by apply elem_of_nil in Hx.
  - rewrite elem_of_cons. intros [->|[->|Hx]]; [| lia |].
    + specialize (IH (or_introl eq_refl)). lia.
    + specialize (IH (or_intror Hx)). lia.
Qed.

Lemma NoDup_month_bins df : NoDup (month_bins df).
Proof.
  unfold month_bins. destruct (_ <$> df); [constructor|apply NoDup_seqZ].
Qed.

Lemma month_bins_cover df r :
  r ∈ df → month_index (Order_Date r) ∈ month_bins df.
Proof.
  intros Hr. unfold month_bins.
  assert (Hin : month_index (Order_Date r) ∈ (month_index ∘ Order_Date) <$> df).
  { apply list_elem_of_fmap. by exists r. }
  destruct (_ <$> df) as [|k ks]; [by apply elem_of_nil in Hin|].
  apply elem_of_cons in Hin. apply foldr_min_max_bound in Hin.
  apply elem_of_seqZ. lia.
Qed.

Lemma groupby_month_partition df : mjoin (groupby_month df).*2 ≡ₚ df.
Proof.
  unfold groupby_month. rewrite <-list_fmap_compose.
  apply (mjoin_groups (month_index ∘ Order_Date)).
  - apply NoDup_month_bins.
  - apply month_bins_cover.
Qed.

(** With exact sums, the sums of the groups of a partition add up to the sum
    of the whole. *)
Lemma group_sums_conserved {A K} `{Dtype A} (c : SalesRecord → A)
    (g : list (K * DataFrame)) df :
  ExactSums A → mjoin g.*2 ≡ₚ df →
  series_sum ((λ kg, group_sum (c <$> kg.2)) <$> g) = series_sum (c <$> df).
Proof.
  intros Hexact Hp.
  transitivity (series_sum (group_sum <$> (fmap c <$> g.*2))).
  { by rewrite <-!list_fmap_compose. }
  rewrite series_sum_groups, mjoin_fmap. apply series_sum_Permutation. by rewrite Hp.
Qed.

(** ** The sales dashboard *)

(** C1, as amended.  For every window the callback returns; total sales and
    total profit are the sums, as pandas computes them in the dtype of the
    column, of the Sales and Profit fields over the rows whose order date
    lies between the start and the end date, both included, and the order
    count is the number of distinct order ids among those rows. *)
Theorem sales_dashboard_totals df (start_date end_date : date) :
  ∃ d, update_sales_dashboard df start_date end_date = Some d ∧
    total_sales d =
      series_sum (Sales <$> filter (in_window_spec start_date end_date) df) ∧
    total_profit d =
      series_sum (Profit <$> filter (in_window_spec start_date end_date) df) ∧
    order_count d =
      size (list_to_set (Order_ID <$> filter (in_window_spec start_date end_date) df)
            : gset string).
Proof.
  eexists. split; [apply update_sales_dashboard_eq|]. csimpl.
  rewrite boolean_index_in_window, nunique_size. done.
Qed.

(** C2, as amended.  The monthly buckets split the rows of the window: every
    selected row lies in exactly one bucket, the one of the month of its
    order date.  Each value plotted for a month is the grouped sum over the
    rows of its bucket, and the totals are the column sums over all selected
    rows.  For a column whose dtype has exact sums, as [int64] has, the
    monthly values add up to the total. *)
Theorem monthly_buckets_conserve_totals df (start_date end_date : date) :
  ∃ d buckets,
    update_sales_dashboard df start_date end_date = Some d ∧
    mjoin buckets.*2 ≡ₚ filter (in_window_spec start_date end_date) df ∧
    Forall (λ b : date * DataFrame, ∃ k, b.1 = month_end k ∧
              Forall (λ r, month_index (Order_Date r) = k) b.2) buckets ∧
    sales_fig d = (λ b, (b.1, CSales (group_sum (Sales <$> b.2)))) <$> buckets ∧
    profit_fig d = (λ b, (b.1, CProfit (group_sum (Profit <$> b.2)))) <$> buckets ∧
    total_sales d =
      series_sum (Sales <$> filter (in_window_spec start_date end_date) df) ∧
    total_profit d =
      series_sum (Profit <$> filter (in_window_spec start_date end_date) df) ∧
    (ExactSums S →
       series_sum ((λ b, group_sum (Sales <$> b.2)) <$> buckets) = total_sales d) ∧
    (ExactSums P →
       series_sum ((λ b, group_sum (Profit <$> b.2)) <$> buckets) = total_profit d).
Proof.
  eexists. exists (groupby_month (boolean_index (in_window start_date end_date) df)).
  split; [apply update_sales_dashboard_eq|].
  cbn [sales_fig profit_fig total_sales total_profit].
  rewrite <-boolean_index_in_window.
  split; [apply groupby_month_partition|]. split; [|do 4 (split; [done|]); split].
  - unfold groupby_month. apply Forall_fmap, Forall_forall. intros k _.
    exists k. split; [done|]. cbn [snd]. apply Forall_forall.
    by intros r [Hk _]%list_elem_of_filter.
  - intros Hexact. by apply group_sums_conserved, groupby_month_partition.
  - intros Hexact. by apply group_sums_conserved, groupby_month_partition.
Qed.

(** C3.  When the sales of the selected rows add up to 0, the callback
    returns, and the profit margin it reports is the number 0. *)
Theorem zero_sales_zero_margin df (start_date end_date : date) :
  is_zero (series_sum (Sales <$> boolean_index (in_window start_date end_date) df)) = true →
  ∃ d, update_sales_dashboard df start_date end_date = Some d ∧
    is_zero (total_sales d) = true ∧ avg_profit_margin d = fzero.
Proof.
  intros H0. eexists. split; [apply update_sales_dashboard_eq|]. csimpl.
  split; [done|]. by rewrite (is_zero_not_positive _ H0).
Qed.

Lemma empty_window_selects_nothing df (s e : date) :
  date_lt e s ∨ Forall (λ r, ¬ in_window_spec s e r) df →
  boolean_index (in_window s e) df = [].
Proof.
  intros Hempty. rewrite boolean_index_in_window. apply filter_none.
  destruct Hempty as [Hlt|Hout]; [|done].
  apply Forall_forall. intros r _ [H1 H2].
  apply (date_lt_not_le _ _ Hlt). by eapply date_le_trans.
Qed.

(** C4.  A window whose start lies after its end, or in which no order date
    of the data set lies, makes the callback return the four scalars 0 and
    empty monthly and scatter series. *)
Theorem empty_window_empty_dashboard df (start_date end_date : date) :
  date_lt end_date start_date ∨
    Forall (λ r, ¬ in_window_spec start_date end_date r) df →
  update_sales_dashboard df start_date end_date = Some empty_dashboard.
Proof.
  intros Hempty. rewrite update_sales_dashboard_eq.
  rewrite (empty_window_selects_nothing _ _ _ Hempty). csimpl.
  rewrite !series_sum_nil.
  rewrite (is_zero_not_positive _ is_zero_dzero). done.
Qed.

(** ** Groups *)

Lemma sort_keys_Permutation `{KeyOrder K} (l : list K) : sort_keys l ≡ₚ l.
Proof. apply merge_sort_Permutation. Qed.

Lemma groupby_fst `{EqDecision K, KeyOrder K} (key : SalesRecord → K) df :
  (groupby key df).*1 = sort_keys (unique (key <$> df)).
Proof.
  unfold groupby. rewrite <-list_fmap_compose.
  generalize (sort_keys (unique (key <$> df))). intros l.
  induction l as [|k l IH]; csimpl; [done|]. by f_equal.
Qed.

Lemma groupby_keys `{EqDecision K, KeyOrder K} (key : SalesRecord → K) df :
  (groupby key df).*1 ≡ₚ unique (key <$> df).
Proof. rewrite groupby_fst. apply sort_keys_Permutation. Qed.

Lemma groupby_rows `{EqDecision K, KeyOrder K} (key : SalesRecord → K) df
    (kg : K * DataFrame) :
  kg ∈ groupby key df → kg.2 = filter (λ r, key r = kg.1) df.
Proof.
  unfold groupby. intros (k & -> & _)%list_elem_of_fmap. done.
Qed.

Lemma groupby_key_in `{EqDecision K, KeyOrder K} (key : SalesRecord → K) df
    (kg : K * DataFrame) :
  kg ∈ groupby key df → ∃ r, r ∈ df ∧ key r = kg.1.
Proof.
  intros Hkg.
  assert (Hk : kg.1 ∈ (groupby key df).*1) by (apply list_elem_of_fmap; by exists kg).
  rewrite groupby_keys, elem_of_unique in Hk.
  apply list_elem_of_fmap in Hk as (r & -> & Hr). by exists r.
Qed.

Lemma groupby_of_row `{EqDecision K, KeyOrder K} (key : SalesRecord → K) df r :
  r ∈ df → (key r, filter (λ r', key r' = key r) df) ∈ groupby key df.
Proof.
  intros Hr. unfold groupby. apply list_elem_of_fmap. exists (key r).
  split; [done|]. rewrite sort_keys_Permutation. apply elem_of_unique.
  apply list_elem_of_fmap. by exists r.
Qed.

Lemma NoDup_groupby_keys `{EqDecision K, KeyOrder K} (key : SalesRecord → K) df :
  NoDup (groupby key df).*1.
Proof. rewrite groupby_keys. apply NoDup_unique. Qed.

Lemma groupby_partition `{EqDecision K, KeyOrder K} (key : SalesRecord → K) df :
  mjoin (groupby key df).*2 ≡ₚ df.
Proof.
  unfold groupby. rewrite <-list_fmap_compose. apply (mjoin_groups key).
  - rewrite sort_keys_Permutation. apply NoDup_unique.
  - intros r Hr. rewrite sort_keys_Permutation. apply elem_of_unique.
    apply list_elem_of_fmap. by exists r.
Qed.

Lemma groupby_nonempty_groups `{EqDecision K, KeyOrder K} (key : SalesRecord → K) df
    (kg : K * DataFrame) :
  kg ∈ groupby key df → kg.2 ≠ [].
Proof.
  intros Hkg. destruct (groupby_key_in key df kg Hkg) as (r & Hr & Hk).
  rewrite (groupby_rows key df kg Hkg). intros Hnil.
  assert (Hin : r ∈ filter (λ r, key r = kg.1) df) by (by apply list_elem_of_filter).
  rewrite Hnil in Hin. by apply elem_of_nil in Hin.
Qed.

Lemma string_leb_total : Total (λ a b : string, Is_true (key_leb a b)).
Proof.
  intros a b. unfold key_leb, string_KeyOrder.
  destruct (String.leb_total a b) as [Hab|Hab]; [left|right]; by apply Is_true_true.
Qed.

Lemma Sorted_groupby_keys `{EqDecision K, KeyOrder K} (key : SalesRecord → K) df :
  Total (λ a b : K, Is_true (key_leb a b)) →
  Sorted (λ a b, Is_true (key_leb a b)) (groupby key df).*1.
Proof.
  intros Htotal. rewrite groupby_fst. unfold sort_keys. by apply Sorted_merge_sort.
Qed.

(** ** The regional analysis *)

Lemma set_margin_agg {K} `{!IndexKey (S:=S) (P:=P) K} (names : list string)
    (g : list (K * DataFrame)) :
  "Profit" ∉ names → "Sales" ∉ names →
  set_margin (agg_sum names sales_profit g) = Some (margin_frame names g).
Proof.
  intros Hp Hs. rewrite agg_sum_sales_profit. unfold set_margin, has_column.
  cbn [index_names columns rows].
  rewrite !bool_decide_eq_true_2 by (rewrite elem_of_app, !elem_of_cons; tauto).
  cbn [andb].
  rewrite (mapM_fmap_Some _ _
    (λ kg, (kg.1, [sum_Sales kg.2; sum_Profit kg.2; CFloat (group_margin kg.2)]))).
  - done.
  - intros kg. unfold get. cbn [index_names columns].
    rewrite (position_None _ _ Hp), (position_None _ _ Hs). done.
Qed.

Lemma region_bar_get (metric : string) (g : list (string * DataFrame))
    (kg : string * DataFrame) :
  metric ∈ region_metric_options →
  get (margin_frame ["Region"] g) metric
      (kg.1, [sum_Sales kg.2; sum_Profit kg.2; CFloat (group_margin kg.2)]) =
  Some (region_bar metric kg.2).
Proof.
  unfold region_metric_options. rewrite !elem_of_cons, elem_of_nil.
  intros [->|[->|[->|[]]]]; done.
Qed.

Lemma xy_series_metric (metric : string) (g : list (string * DataFrame)) :
  metric ∈ region_metric_options →
  xy_series metric (margin_frame ["Region"] g) =
  Some ((λ kg, (kg.1, region_bar metric kg.2)) <$> g).
Proof.
  intros Hm. unfold xy_series.
  assert (has_column (margin_frame ["Region"] g) metric = true) as ->.
  { apply bool_decide_eq_true_2. revert Hm. unfold region_metric_options.
    cbn [margin_frame index_names columns app]. rewrite !elem_of_cons. tauto. }
  change (rows (margin_frame ["Region"] g))
    with ((λ kg : string * DataFrame,
             (kg.1, [sum_Sales kg.2; sum_Profit kg.2; CFloat (group_margin kg.2)])) <$> g).
  apply mapM_fmap_Some. intros kg. by rewrite (region_bar_get metric g kg Hm).
Qed.

Lemma xy_series_unknown (metric : string) (g : list (string * DataFrame)) :
  metric ∉ region_columns → xy_series metric (margin_frame ["Region"] g) = None.
Proof.
  intros Hm. unfold xy_series, has_column. by rewrite bool_decide_eq_false_2.
Qed.

Lemma scatter_series_margin_frame (g : list (string * Z * DataFrame)) :
  scatter_series (margin_frame ["Region"; "Year"] g) =
  if decide (Forall (λ kg, Is_true (valid_marker_size (group_margin kg.2))) g)
  then Some (scatter_points g) else None.
Proof.
  unfold scatter_series.
  assert (Hcols : forallb (has_column (margin_frame ["Region"; "Year"] g))
            ["Sales"; "Profit"; "Region"; "Margin"; "Year"] = true) by done.
  rewrite Hcols. cbn [rows margin_frame].
  assert (Hpt : ∀ kg : string * Z * DataFrame,
    scatter_point (margin_frame ["Region"; "Year"] g)
      (kg.1, [sum_Sales kg.2; sum_Profit kg.2; CFloat (group_margin kg.2)]) =
    if valid_marker_size (group_margin kg.2)
    then Some {| sp_region := kg.1.1; sp_year := kg.1.2;
                 sp_sales := sum_Sales kg.2; sp_profit := sum_Profit kg.2;
                 sp_margin := group_margin kg.2 |}
    else None) by done.
  change (rows (margin_frame ["Region"; "Year"] g))
    with ((λ kg : string * Z * DataFrame,
             (kg.1, [sum_Sales kg.2; sum_Profit kg.2; CFloat (group_margin kg.2)])) <$> g).
  clear Hcols. revert Hpt. generalize (margin_frame ["Region"; "Year"] g). intros f Hpt.
  induction g as [|kg g' IH]; [done|].
  rewrite fmap_cons. cbn [mapM]. rewrite Hpt.
  destruct (valid_marker_size (group_margin kg.2)) eqn:Hkg.
  - cbn [mbind option_bind]. rewrite IH.
    destruct (decide (Forall _ g')) as [Hv|Hv].
    + rewrite decide_True; [done|]. constructor; [by rewrite Hkg|done].
    + rewrite decide_False; [done|]. by intros [_ ?]%Forall_cons.
  - rewrite decide_False; [done|]. intros [Hk _]%Forall_cons. by rewrite Hkg in Hk.
Qed.

Lemma marker_sizes_valid_groups df :
  marker_sizes_valid df ↔
  Forall (λ kg, Is_true (valid_marker_size (group_margin kg.2)))
         (groupby (λ r, (Region r, Year r)) df).
Proof.
  unfold marker_sizes_valid. rewrite !Forall_forall. split.
  - intros Hv kg Hkg.
    destruct (groupby_key_in _ df kg Hkg) as (r & Hr & Hk).
    rewrite (groupby_rows _ df kg Hkg), <-Hk. by apply Hv.
  - intros Hv r Hr. exact (Hv _ (groupby_of_row (λ r, (Region r, Year r)) df r Hr)).
Qed.

(** The result of the callback in closed form: it returns exactly when
    plotly accepts every marker size. *)
Lemma update_region_analysis_eq df (metric : string) :
  metric ∈ region_metric_options →
  update_region_analysis df metric =
  if decide (marker_sizes_valid df) then
    Some {| region_data := margin_frame ["Region"] (groupby Region df);
            bar_title :=
              if decide (metric = "Margin") then "Profit Margin (%) by Region"
              else "Total " +:+ metric +:+ " by Region";
            bar_fig := (λ kg, (kg.1, region_bar metric kg.2)) <$> groupby Region df;
            regional_perf :=
              margin_frame ["Region"; "Year"] (groupby (λ r, (Region r, Year r)) df);
            scatter_fig := scatter_points (groupby (λ r, (Region r, Year r)) df) |}
  else None.
Proof.
  intros Hm. unfold update_region_analysis.
  rewrite !set_margin_agg by not_a_name.
  cbn [mbind option_bind]. rewrite (xy_series_metric metric _ Hm).
  cbn [mbind option_bind]. rewrite scatter_series_margin_frame.
  destruct (decide (marker_sizes_valid df)) as [Hv|Hv];
    destruct (decide (Forall _ (groupby _ df))) as [Hg|Hg]; try done.
  - by apply marker_sizes_valid_groups in Hv.
  - by apply marker_sizes_valid_groups in Hg.
Qed.

Lemma update_region_analysis_Some df (metric : string) (d : RegionAnalysis) :
  metric ∈ region_metric_options →
  update_region_analysis df metric = Some d →
  marker_sizes_valid df ∧
  region_data d = margin_frame ["Region"] (groupby Region df) ∧
  bar_fig d = (λ kg, (kg.1, region_bar metric kg.2)) <$> groupby Region df ∧
  regional_perf d =
    margin_frame ["Region"; "Year"] (groupby (λ r, (Region r, Year r)) df) ∧
  scatter_fig d = scatter_points (groupby (λ r, (Region r, Year r)) df).
Proof.
  intros Hm. rewrite (update_region_analysis_eq df metric Hm).
  destruct (decide (marker_sizes_valid df)) as [Hv|Hv]; [|done].
  intros [= <-]. done.
Qed.

(** C5, as amended.  For every metric of the selector, the callback returns
    whenever plotly accepts the marker sizes of the scatter chart.  What it
    returns groups all rows of the data set by region: one bar per region
    occurring in the data set, whose value is computed from all rows of that
    region: the grouped sum of the metric, or the margin of the two grouped
    sums.  For the metrics Sales and Profit, when the dtype of the column has
    exact sums, as [int64] has, the bars add up to the sum of the column over
    the whole data set. *)
Theorem region_bars_sum_to_total df (metric : string) :
  metric ∈ region_metric_options →
  (marker_sizes_valid df → is_Some (update_region_analysis df metric)) ∧
  ∀ d, update_region_analysis df metric = Some d →
    (bar_fig d).*1 ≡ₚ unique (Region <$> df) ∧
    (∀ region v, (region, v) ∈ bar_fig d →
       region ∈ Region <$> df ∧
       v = region_bar metric (filter (λ r, Region r = region) df)) ∧
    (metric = "Sales" → ExactSums S →
       ∃ vs, (bar_fig d).*2 = CSales <$> vs ∧
             series_sum vs = series_sum (Sales <$> df)) ∧
    (metric = "Profit" → ExactSums P →
       ∃ vs, (bar_fig d).*2 = CProfit <$> vs ∧
             series_sum vs = series_sum (Profit <$> df)).
Proof.
  intros Hm. split.
  - intros Hv. rewrite (update_region_analysis_eq df metric Hm), decide_True by done.
    by eexists.
  - intros d Hd.
    destruct (update_region_analysis_Some df metric d Hm Hd) as (_ & _ & -> & _).
    rewrite <-!list_fmap_compose. split; [apply (groupby_keys Region)|].
    split; [|split].
    + intros region v (kg & [= -> ->] & Hkg)%list_elem_of_fmap.
      rewrite <-(groupby_rows _ _ _ Hkg). split; [|done].
      destruct (groupby_key_in Region df kg Hkg) as (r & Hr & <-).
      apply list_elem_of_fmap. by exists r.
    + intros -> Hexact.
      exists ((λ kg, group_sum (Sales <$> kg.2)) <$> groupby Region df).
      split; [by rewrite <-list_fmap_compose|].
      by apply group_sums_conserved, groupby_partition.
    + intros -> Hexact.
      exists ((λ kg, group_sum (Profit <$> kg.2)) <$> groupby Region df).
      split; [by rewrite <-list_fmap_compose|].
      by apply group_sums_conserved, groupby_partition.
Qed.

(** ** The margin columns *)

Lemma margin_of_zero_sales (p s : float64) :
  feqb s fzero = true → is_finite (margin_of p s) = false.
Proof.
  intros Hs. destruct s as [b|b| |b m e]; [|by destruct b|done|by destruct b].
  by destruct p as [[]|[]| |[] m e], b.
Qed.

Lemma margin_rows_unguarded `{EqDecision K, KeyOrder K} `{!IndexKey (S:=S) (P:=P) K}
    (names : list string) (key_of : SalesRecord → K) df :
  position "Margin" names = None →
  Forall (unguarded_margin key_of df (margin_frame names (groupby key_of df)))
         (rows (margin_frame names (groupby key_of df))).
Proof.
  intros Hn. cbn [rows margin_frame]. apply Forall_fmap, Forall_forall. intros kg Hkg.
  unfold unguarded_margin, compose. cbn [fst].
  rewrite <-(groupby_rows _ _ _ Hkg).
  split; [by eapply groupby_nonempty_groups|]. split.
  - unfold get. cbn [index_names columns margin_frame]. rewrite Hn. done.
  - apply margin_of_zero_sales.
Qed.

(** C9, as amended.  The margins per region and per (region, year) are the
    float quotient profit / sales * 100 of the grouped sums of the rows of
    the group, with no guard: never a finite number, hence never 0, when the
    sales of the group add up to 0.  The margin per region is what the bar
    chart plots under the metric Margin, whatever it is.  The margin per
    (region, year) is the size of the scatter markers: when one of them is
    negative or NaN the callback raises and returns nothing; the sizes that
    it returns are all accepted, so that a group without sales appears in
    the scatter only with an infinite margin. *)
Theorem region_margin_unguarded df (metric : string) :
  metric ∈ region_metric_options →
  (¬ marker_sizes_valid df → update_region_analysis df metric = None) ∧
  ∀ d, update_region_analysis df metric = Some d →
    (rows (region_data d)).*1 ≡ₚ unique (Region <$> df) ∧
    Forall (unguarded_margin Region df (region_data d)) (rows (region_data d)) ∧
    (rows (regional_perf d)).*1 ≡ₚ unique ((λ r, (Region r, Year r)) <$> df) ∧
    Forall (unguarded_margin (λ r, (Region r, Year r)) df (regional_perf d))
           (rows (regional_perf d)) ∧
    (metric = "Margin" →
       mapM (get (region_data d) "Margin") (rows (region_data d)) =
       Some (bar_fig d).*2) ∧
    mapM (get (regional_perf d) "Margin") (rows (regional_perf d)) =
      Some (CFloat ∘ sp_margin <$> scatter_fig d) ∧
    Forall (λ pt, Is_true (valid_marker_size (sp_margin pt)) ∧
                  (is_finite (sp_margin pt) = false → sp_margin pt = pinf))
           (scatter_fig d).
Proof.
  intros Hm. split.
  - intros Hv. by rewrite (update_region_analysis_eq df metric Hm), decide_False.
  - intros d Hd.
    destruct (update_region_analysis_Some df metric d Hm Hd)
      as (Hv & -> & -> & -> & ->).
    split; [|split; [by apply margin_rows_unguarded|]].
    { cbn [rows margin_frame]. rewrite <-list_fmap_compose. apply (groupby_keys Region). }
    split; [|split; [by apply margin_rows_unguarded|]].
    { cbn [rows margin_frame]. rewrite <-list_fmap_compose.
      apply (groupby_keys (λ r, (Region r, Year r))). }
    split; [|split].
    + intros ->. cbn [rows margin_frame]. rewrite <-list_fmap_compose.
      by apply mapM_fmap_Some.
    + cbn [rows margin_frame]. unfold scatter_points. rewrite <-list_fmap_compose.
      by apply mapM_fmap_Some.
    + unfold scatter_points. apply Forall_fmap.
      apply marker_sizes_valid_groups in Hv.
      eapply Forall_impl; [exact Hv|]. intros kg Hkg. unfold compose.
      cbn [sp_margin]. split; [done|].
      unfold valid_marker_size in Hkg. by destruct (group_margin kg.2) as [|[]| |].
Qed.

(** C10.  For any two values of the metric selector the callback behaves
    alike: it raises for both or returns for both, with the same scatter
    series, the same (region, year) frame and the same regional frame.  The
    metric picks the column of the regional frame that the bar chart plots,
    and the title of that chart. *)
Theorem scatter_independent_of_metric df (m1 m2 : string) :
  m1 ∈ region_metric_options → m2 ∈ region_metric_options →
  scatter_fig <$> update_region_analysis df m1 =
    scatter_fig <$> update_region_analysis df m2 ∧
  regional_perf <$> update_region_analysis df m1 =
    regional_perf <$> update_region_analysis df m2 ∧
  region_data <$> update_region_analysis df m1 =
    region_data <$> update_region_analysis df m2 ∧
  (∀ d1, update_region_analysis df m1 = Some d1 →
     xy_series m1 (region_data d1) = Some (bar_fig d1)) ∧
  (∀ d2, update_region_analysis df m2 = Some d2 →
     xy_series m2 (region_data d2) = Some (bar_fig d2)).
Proof.
  intros H1 H2.
  rewrite (update_region_analysis_eq df m1 H1), (update_region_analysis_eq df m2 H2).
  destruct (decide (marker_sizes_valid df)); repeat split; try done;
    intros d [= <-]; by apply xy_series_metric.
Qed.


(** ** Sorting *)

Lemma Sorted_take {A} (R : relation A) (l : list A) (n : nat) :
  Sorted R l → Sorted R (take n l).
Proof.
  intros Hs. revert n. induction Hs as [|x l Hs IH Hhd]; intros [|n]; csimpl;
    try constructor; [apply IH|].
  destruct Hhd; destruct n; csimpl; by constructor.
Qed.

Lemma Sorted_app_cross {A} (R : relation A) (l1 l2 : list A) :
  Sorted R l1 → Sorted R l2 → (∀ a b, a ∈ l1 → b ∈ l2 → R a b) →
  Sorted R (l1 ++ l2).
Proof.
  intros Hs1 Hs2. induction Hs1 as [|a l1 Hs1 IH Hhd]; intros Hcross; [done|].
  cbn [app]. constructor.
  - apply IH. intros x y Hx Hy. apply Hcross; [by right|done].
  - destruct Hhd as [|b l1' Hab]; cbn [app]; [|by constructor].
    destruct l2 as [|b l2]; constructor. apply Hcross; left.
Qed.

Lemma Sorted_all_related {A} (R : relation A) (l : list A) :
  (∀ a b, a ∈ l → b ∈ l → R a b) → Sorted R l.
Proof.
  induction l as [|a l IH]; intros Hall; constructor.
  - apply IH. intros x y Hx Hy. apply Hall; by right.
  - destruct l as [|b l]; constructor. apply Hall; [left|right; left].
Qed.

Lemma Sorted_StronglySorted_on {A} (R : relation A) (ok : A → Prop) (l : list A) :
  (∀ x y z, ok x → ok y → ok z → R x y → R y z → R x z) →
  Forall ok l → Sorted R l → StronglySorted R l.
Proof.
  intros Htrans Hok Hs. induction Hs as [|a l Hs IH Hhd]; [constructor|].
  apply Forall_cons in Hok as [Ha Hok]. specialize (IH Hok).
  constructor; [done|].
  destruct Hhd as [|b l Hab]; [constructor|].
  apply Forall_cons in Hok as [Hb Hok].
  apply StronglySorted_inv in IH as [_ Hbl].
  constructor; [done|].
  rewrite Forall_forall in Hbl, Hok. apply Forall_forall. intros c Hc.
  apply (Htrans a b c); auto.
Qed.

Lemma filter_bool_partition {A} (f : A → bool) (l : list A) :
  filter (λ x, f x = false) l ++ filter (λ x, f x = true) l ≡ₚ l.
Proof.
  induction l as [|x l IH]; [done|]. rewrite !filter_cons.
  destruct (f x) eqn:Hx.
  - rewrite decide_False, decide_True by done. by rewrite <-Permutation_middle, IH.
  - rewrite decide_True, decide_False by done. cbn [app]. by rewrite IH.
Qed.

Lemma insert_row_Permutation {R} (before : R → R → bool) (x : R) (l : list R) :
  insert_row before x l ≡ₚ x :: l.
Proof.
  induction l as [|y l IH]; [done|]. cbn [insert_row].
  destruct (before x y); [done|]. rewrite IH. apply Permutation_swap.
Qed.

Lemma insertion_sort_Permutation {R} (before : R → R → bool) (l : list R) :
  foldr (insert_row before) [] l ≡ₚ l.
Proof.
  induction l as [|x l IH]; [done|]. cbn [foldr].
  by rewrite insert_row_Permutation, IH.
Qed.

Section insertion.
Context {R : Type} (before : R → R → bool) (desc : relation R) (ok : R → Prop).
Hypothesis before_desc : ∀ a b, ok a → ok b → before a b = true → desc a b.
Hypothesis before_total : ∀ a b, ok a → ok b → before a b = false → desc b a.

Lemma insert_row_HdRel (x y : R) (l : list R) :
  desc y x → HdRel desc y l → HdRel desc y (insert_row before x l).
Proof.
  intros Hyx Hyl. destruct l as [|z l]; [by constructor|]. cbn [insert_row].
  destruct (before x z); [by constructor|].
  constructor. by inversion Hyl.
Qed.

Lemma insert_row_Sorted (x : R) (l : list R) :
  ok x → Forall ok l → Sorted desc l → Sorted desc (insert_row before x l).
Proof.
  intros Hx Hok Hs. induction l as [|y l IH]; [by repeat constructor|].
  cbn [insert_row]. apply Forall_cons in Hok as [Hy Hok].
  apply Sorted_inv in Hs as [Hs Hhd].
  destruct (before x y) eqn:Hb.
  - constructor; [by constructor|]. constructor. by apply before_desc.
  - constructor; [by apply IH|]. apply insert_row_HdRel; [|done].
    by apply before_total.
Qed.

Lemma insertion_sort_Sorted (l : list R) :
  Forall ok l → Sorted desc (foldr (insert_row before) [] l).
Proof.
  induction l as [|x l IH]; [constructor|].
  intros [Hx Hl]%Forall_cons. cbn [foldr].
  apply insert_row_Sorted; [done| |by apply IH].
  by rewrite insertion_sort_Permutation.
Qed.
End insertion.

(** Sorting rows whose cell is a sum of sales. *)
Lemma nargsort_desc_Permutation {R} (tie_rank : list R → R → nat)
    (key : R → option (@cell S P)) (l : list R) :
  nargsort_desc tie_rank key l ≡ₚ l.
Proof.
  unfold nargsort_desc. rewrite insertion_sort_Permutation.
  apply (filter_bool_partition (row_is_na key)).
Qed.

Lemma nargsort_desc_Sorted {R} (tie_rank : list R → R → nat)
    (key : R → option (@cell S P)) (l : list R) :
  Forall (λ row, ∃ x : S, key row = Some (CSales x)) l →
  Sorted (λ a b, Is_true (desc_by key a b)) (nargsort_desc tie_rank key l).
Proof.
  intros Hkey. unfold nargsort_desc. apply Sorted_app_cross.
  - apply (insertion_sort_Sorted _ _
      (λ row, ∃ x : S, key row = Some (CSales x) ∧ is_na x = false)).
    + intros a b (x & Ha & Hx) (y & Hb & Hy). unfold goes_before, desc_by.
      rewrite Ha, Hb. cbn [cell_leb cell_is_na]. rewrite Hy.
      destruct (dleb y x); [done|]. by intros.
    + intros a b (x & Ha & Hx) (y & Hb & Hy). unfold goes_before, desc_by.
      rewrite Ha, Hb. cbn [cell_leb cell_is_na]. rewrite Hx. cbn [orb].
      destruct (dleb y x) eqn:Hyx.
      * destruct (dleb x y); [done|]. by intros.
      * intros _. by rewrite (dleb_total y x Hy Hx Hyx).
    + apply Forall_forall. intros row [Hna Hr]%list_elem_of_filter.
      rewrite Forall_forall in Hkey. destruct (Hkey row Hr) as [x Hx].
      exists x. split; [done|]. unfold row_is_na in Hna. by rewrite Hx in Hna.
  - apply Sorted_all_related. intros a b [Ha Hain]%list_elem_of_filter
      [Hb Hbin]%list_elem_of_filter.
    rewrite Forall_forall in Hkey.
    destruct (Hkey a Hain) as [x Hx], (Hkey b Hbin) as [y Hy].
    unfold desc_by, row_is_na in *. rewrite Hx, Hy in *. by rewrite Hb.
  - intros a b Ha [Hb Hbin]%list_elem_of_filter.
    rewrite insertion_sort_Permutation in Ha. apply list_elem_of_filter in Ha as [_ Hain].
    rewrite Forall_forall in Hkey.
    destruct (Hkey a Hain) as [x Hx], (Hkey b Hbin) as [y Hy].
    unfold desc_by, row_is_na in *. rewrite Hx, Hy in *. by rewrite Hb.
Qed.

Lemma desc_by_trans {R} (key : R → option (@cell S P)) (a b c : R) :
  (∃ x : S, key a = Some (CSales x)) → (∃ x : S, key b = Some (CSales x)) →
  (∃ x : S, key c = Some (CSales x)) →
  desc_by key a b → desc_by key b c → desc_by key a c.
Proof.
  intros [x Hx] [y Hy] [z Hz]. unfold desc_by. rewrite Hx, Hy, Hz.
  cbn [cell_is_na cell_leb]. destruct (is_na z); [done|]. cbn [orb].
  intros Hab Hbc. apply Is_true_true in Hbc.
  destruct (dleb_not_na _ _ Hbc) as [_ Hny]. rewrite Hny in Hab. cbn [orb] in Hab.
  apply Is_true_true in Hab. apply Is_true_true. by eapply dleb_trans.
Qed.

(** ** The category analysis *)

Lemma subcategory_sums_rows (f : DataFrame) :
  rows (subcategory_sums f) =
  (λ kg, (kg.1, [sum_Sales kg.2])) <$> groupby by_subcategory f.
Proof. done. Qed.

Lemma subcategory_sums_get (f : DataFrame) (row : SubRow) :
  get (subcategory_sums f) "Sales" row = row.2 !! 0%nat.
Proof. done. Qed.

Lemma subcategory_sums_Sales (f : DataFrame) :
  Forall (λ row, ∃ x : S, get (subcategory_sums f) "Sales" row = Some (CSales x))
         (rows (subcategory_sums f)).
Proof.
  rewrite subcategory_sums_rows. apply Forall_fmap, Forall_forall.
  intros kg _. by eexists.
Qed.

(** The sort of the model meets the promise of [sort_values] on the frame of
    sub-category sums. *)
Lemma nargsort_desc_spec (tie_rank : list SubRow → SubRow → nat) (f : DataFrame) :
  sort_values_spec (nargsort_desc tie_rank) "Sales" (subcategory_sums f).
Proof.
  split; [apply nargsort_desc_Permutation|].
  apply nargsort_desc_Sorted, subcategory_sums_Sales.
Qed.

Lemma top10_rows (sort : (SubRow → option cell) → list SubRow → list SubRow)
    (f : DataFrame) :
  rows (top10 sort f) =
  take 10 (sort (get (subcategory_sums f) "Sales") (rows (subcategory_sums f))).
Proof. done. Qed.

Lemma top10_fig (sort : (SubRow → option cell) → list SubRow → list SubRow)
    (f : DataFrame) :
  sort (get (subcategory_sums f) "Sales") (rows (subcategory_sums f))
    ≡ₚ rows (subcategory_sums f) →
  is_Some (xy_series "Sales" (top10 sort f)).
Proof.
  intros Hp. unfold xy_series.
  assert (has_column (top10 sort f) "Sales" = true) as -> by done.
  apply mapM_is_Some. rewrite top10_rows. apply Forall_take. rewrite Hp.
  eapply Forall_impl; [apply subcategory_sums_Sales|].
  intros row [x Hx]. unfold compose.
  change (get (top10 sort f) "Sales" row) with (get (subcategory_sums f) "Sales" row).
  by rewrite Hx.
Qed.

(** The result of the callback body in closed form. *)
Lemma category_analysis_eq
    (sort : (SubRow → option cell) → list SubRow → list SubRow) (f : DataFrame) :
  sort (get (subcategory_sums f) "Sales") (rows (subcategory_sums f))
    ≡ₚ rows (subcategory_sums f) →
  ∃ fig, xy_series "Sales" (top10 sort f) = Some fig ∧
    category_analysis sort f =
    Some {| category_data := agg_sum ["Category"] sales_profit (groupby Category f);
            category_fig := (λ kg, (kg.1, sum_Sales kg.2)) <$> groupby Category f;
            subcategory_data := top10 sort f;
            subcategory_fig := fig;
            treemap_data := subcategory_sums f;
            treemap_fig := (λ kg, (kg.1, sum_Sales kg.2)) <$> groupby by_subcategory f |}.
Proof.
  intros Hp. destruct (top10_fig sort f Hp) as [fig Hfig].
  exists fig. split; [done|]. unfold category_analysis.
  rewrite xy_series_Sales by not_a_name. cbn [mbind option_bind].
  fold (@by_subcategory S P D). fold (subcategory_sums f).
  assert (sort_values_desc sort "Sales" (subcategory_sums f) =
          Some {| index_names := ["Category"; "Sub Category"];
                  columns := ["Sales"];
                  rows := sort (get (subcategory_sums f) "Sales")
                               (rows (subcategory_sums f)) |}) as -> by done.
  cbn [mbind option_bind]. fold (top10 sort f). rewrite Hfig.
  cbn [mbind option_bind].
  unfold subcategory_sums. rewrite xy_series_Sales_only by not_a_name. done.
Qed.

Lemma selected_categories df (categories : list string) (c : string) :
  c ∈ Category <$> selected df categories ↔ c ∈ categories ∧ c ∈ Category <$> df.
Proof.
  unfold selected, boolean_index, isin. rewrite !list_elem_of_fmap. split.
  - intros (r & -> & [Hc Hr]%list_elem_of_filter).
    apply bool_decide_spec in Hc. split; [done|]. by exists r.
  - intros [Hc (r & -> & Hr)]. exists r. split; [done|].
    apply list_elem_of_filter. split; [|done]. by apply bool_decide_spec.
Qed.

(** C6.  When every category occurring in the data set is selected, the
    callback returns what its aggregation returns on the unfiltered data set:
    the same per-category, top sub-category and treemap frames and series.
    With no category selected it returns six empty ones. *)
Theorem category_full_and_empty_selection
    (sort : (SubRow → option cell) → list SubRow → list SubRow)
    df (categories : list string) :
  Forall (λ r, Category r ∈ categories) df →
  sort_values_spec sort "Sales" (subcategory_sums df) →
  sort_values_spec sort "Sales" (subcategory_sums ([] : DataFrame)) →
  (∃ d, category_analysis sort df = Some d ∧
        update_category_analysis sort df categories = Some d) ∧
  update_category_analysis sort df [] = Some empty_category_analysis.
Proof.
  intros Hall [Hfull _] [Hp _]. apply Permutation_nil_r in Hp.
  unfold update_category_analysis. split.
  - destruct (category_analysis_eq sort df Hfull) as (fig & _ & Heq).
    eexists. split; [exact Heq|].
    rewrite boolean_index_all; [exact Heq|].
    eapply Forall_impl; [exact Hall|]. intros r Hr. by apply bool_decide_eq_true.
  - rewrite boolean_index_none.
    + destruct (category_analysis_eq sort ([] : DataFrame)) as (fig & Hfig & ->).
      { by rewrite Hp. }
      unfold top10, xy_series in Hfig. rewrite Hp in Hfig.
      injection Hfig as <-. unfold top10. rewrite Hp. done.
    + apply Forall_forall. intros r _. apply bool_decide_eq_false, not_elem_of_nil.
Qed.

(** C7, as amended.  For every selection the callback returns; the top
    sub-category frame has at most 10 rows, descends by sales (a missing sum
    last), consists of rows of the frame of sales sums per (category,
    sub-category) of the selected rows, each holding the sales summed over
    the selected rows of its group, and is what the bar chart plots.  This
    holds wherever the sort places rows of equal sales. *)
Theorem top10_subcategories
    (tie_rank : list SubRow → SubRow → nat) df (categories : list string) :
  ∃ d, update_category_analysis (nargsort_desc tie_rank) df categories = Some d ∧
    (length (rows (subcategory_data d)) ≤ 10)%nat ∧
    Sorted (λ a b, Is_true (desc_by (get (subcategory_data d) "Sales") a b))
           (rows (subcategory_data d)) ∧
    rows (subcategory_data d) ⊆ rows (subcategory_sums (selected df categories)) ∧
    Forall (λ row, row.2 =
       [sum_Sales (filter (λ r, by_subcategory r = row.1) (selected df categories))])
      (rows (subcategory_data d)) ∧
    xy_series "Sales" (subcategory_data d) = Some (subcategory_fig d).
Proof.
  destruct (nargsort_desc_spec tie_rank (selected df categories)) as [Hp Hs].
  destruct (category_analysis_eq (nargsort_desc tie_rank) _ Hp) as (fig & Hfig & Heq).
  eexists. split; [exact Heq|]. cbn [subcategory_data subcategory_fig].
  assert (Hsub : rows (top10 (nargsort_desc tie_rank) (selected df categories))
                 ⊆ rows (subcategory_sums (selected df categories))).
  { intros row Hrow. rewrite top10_rows in Hrow. rewrite <-Hp.
    by eapply subseteq_take. }
  split; [rewrite top10_rows, length_take; lia|].
  split; [rewrite top10_rows; by apply Sorted_take|].
  split; [done|]. split; [|done].
  apply Forall_forall. intros row Hrow. apply Hsub in Hrow.
  rewrite subcategory_sums_rows in Hrow.
  apply list_elem_of_fmap in Hrow as (kg & -> & Hkg).
  cbn [fst snd]. by rewrite <-(groupby_rows _ _ _ Hkg).
Qed.

(** ** Columns of the aggregated frames *)



(** * Further properties of the callbacks *)

(** ** The date picker's initial range *)

Lemma foldr_date_min_le (d : date) (ds : list date) (x : date) :
  x = d ∨ x ∈ ds → date_le (foldr date_min d ds) x.
Proof.
  induction ds as [|a ds IH]; csimpl.
  - intros [->|Hx]; [apply date_le_refl|]. by apply elem_of_nil in Hx.
  - rewrite elem_of_cons. unfold date_min at 1.
    destruct (date_leb a (foldr date_min d ds)) eqn:Hab.
    + apply date_leb_le in Hab. intros [->|[->|Hx]].
      * eapply date_le_trans; [exact Hab|]. apply IH. by left.
      * apply date_le_refl.
      * eapply date_le_trans; [exact Hab|]. apply IH. by right.
    + apply date_leb_false in Hab. intros [->|[->|Hx]].
      * apply IH. by left.
      * done.
      * apply IH. by right.
Qed.

Lemma foldr_date_max_ge (d : date) (ds : list date) (x : date) :
  x = d ∨ x ∈ ds → date_le x (foldr date_max d ds).
Proof.
  induction ds as [|a ds IH]; csimpl.
  - intros [->|Hx]; [apply date_le_refl|]. by apply elem_of_nil in Hx.
  - rewrite elem_of_cons. unfold date_max at 1.
    destruct (date_leb a (foldr date_max d ds)) eqn:Hab.
    + apply date_leb_le in Hab. intros [->|[->|Hx]].
      * apply IH. by left.
      * done.
      * apply IH. by right.
    + apply date_leb_false in Hab. intros [->|[->|Hx]].
      * eapply date_le_trans; [|exact Hab]. apply IH. by left.
      * apply date_le_refl.
      * eapply date_le_trans; [|exact Hab]. apply IH. by right.
Qed.

Lemma initial_date_range_covers df (s e : date) :
  initial_date_range df = Some (s, e) →
  Forall (in_window_spec s e) df.
Proof.
  unfold initial_date_range, min_date, max_date. intros Hrange.
  apply Forall_forall. intros r Hr.
  assert (Hin : Order_Date r ∈ Order_Date <$> df).
  { apply list_elem_of_fmap. by exists r. }
  destruct (Order_Date <$> df) as [|d ds]; [done|].
  cbn in Hrange. injection Hrange as <- <-.
  apply elem_of_cons in Hin. split.
  - by apply foldr_date_min_le.
  - by apply foldr_date_max_ge.
Qed.

(** X3.  On a data set with at least one row the date picker starts with a
    range, and with that range the sales callback selects every row: its
    totals are those of the whole data set, its order count the number of
    distinct order ids of the data set, and its scatter has a point for each
    row, in file order. *)
Theorem initial_range_selects_everything df :
  df ≠ [] →
  ∃ s e d, initial_date_range df = Some (s, e) ∧
    update_sales_dashboard df s e = Some d ∧
    total_sales d = series_sum (Sales <$> df) ∧
    total_profit d = series_sum (Profit <$> df) ∧
    order_count d = nunique (Order_ID <$> df) ∧
    discount_fig d = (λ r, (Discount r, Sales r, Category r)) <$> df.
Proof.
  intros Hne.
  assert (Hr : ∃ s e, initial_date_range df = Some (s, e)).
  { unfold initial_date_range, min_date, max_date.
    destruct df as [|r df]; [done|]. csimpl. by eexists _, _. }
  destruct Hr as (s & e & Hr). exists s, e.
  eexists. split; [done|]. split; [apply update_sales_dashboard_eq|].
  cbn [total_sales total_profit order_count discount_fig].
  rewrite boolean_index_all; [done|].
  eapply Forall_impl; [by apply initial_date_range_covers|].
  intros r Hw. apply Is_true_true. by apply in_window_iff.
Qed.

(** ** The order count *)


Lemma in_window_spec_widen (s e s' e' : date) r :
  date_le s' s → date_le e e' → in_window_spec s e r → in_window_spec s' e' r.
Proof.
  intros Hs He [H1 H2]. split; by eapply date_le_trans.
Qed.

(** X6.  Widening the window never lowers the number of orders. *)
Theorem order_count_monotone df (s e s' e' : date) :
  date_le s' s → date_le e e' →
  ∃ d d', update_sales_dashboard df s e = Some d ∧
    update_sales_dashboard df s' e' = Some d' ∧
    (order_count d ≤ order_count d')%nat.
Proof.
  intros Hs He. eexists _, _.
  split; [apply update_sales_dashboard_eq|].
  split; [apply update_sales_dashboard_eq|].
  cbn [order_count]. rewrite !nunique_size. apply subseteq_size.
  intros oid. rewrite !elem_of_list_to_set, !list_elem_of_fmap.
  intros (r & -> & Hr). exists r. split; [done|].
  rewrite boolean_index_in_window in *.
  apply list_elem_of_filter in Hr as [Hw Hr]. apply list_elem_of_filter.
  split; [|done]. by eapply in_window_spec_widen.
Qed.

(** ** The monthly series *)

Lemma StronglySorted_seqZ (m n : Z) : StronglySorted Z.lt (seqZ m n).
Proof.
  remember (Z.to_nat n) as k eqn:Hk. revert m n Hk.
  induction k as [|k IH]; intros m n Hk.
  - rewrite seqZ_nil by lia. constructor.
  - rewrite seqZ_cons by lia. constructor.
    + apply IH. lia.
    + apply Forall_seqZ. lia.
Qed.

Lemma month_end_lt (k k' : Z) : k < k' → date_lt (month_end k) (month_end k').
Proof.
  intros Hlt. unfold date_lt, month_end. cbn [year month day].
  Z.div_mod_to_equations. lia.
Qed.

Lemma StronglySorted_month_bins df : StronglySorted Z.lt (month_bins df).
Proof.
  unfold month_bins. destruct (_ <$> df); [constructor|apply StronglySorted_seqZ].
Qed.

(** X7.  The two monthly line series share their dates, and these run
    forward in time: each point lies in a later month than the one before. *)
Theorem monthly_series_chronological df (start_date end_date : date) :
  ∃ d, update_sales_dashboard df start_date end_date = Some d ∧
    (sales_fig d).*1 = (profit_fig d).*1 ∧
    StronglySorted date_lt (sales_fig d).*1.
Proof.
  eexists. split; [apply update_sales_dashboard_eq|].
  cbn [sales_fig profit_fig]. unfold groupby_month.
  rewrite <-!list_fmap_compose. split; [done|].
  eapply (StronglySorted_fmap _ Z.lt); [|apply StronglySorted_month_bins].
  intros k k' Hlt. by apply month_end_lt.
Qed.

Lemma month_index_iff r (k : Z) :
  valid_month r →
  month_index (Order_Date r) = k ↔
  year (Order_Date r) = year (month_end k) ∧ month (Order_Date r) = month (month_end k).
Proof.
  unfold valid_month, Month, month_index, month_end. cbn [year month].
  intros Hv. Z.div_mod_to_equations. lia.
Qed.

Lemma month_bin_rows df (s e : date) (k : Z) :
  Forall valid_month df →
  filter (λ r, month_index (Order_Date r) = k) (boolean_index (in_window s e) df) =
  filter (λ r, in_window_spec s e r ∧
               year (Order_Date r) = year (month_end k) ∧
               month (Order_Date r) = month (month_end k)) df.
Proof.
  intros Hv. rewrite boolean_index_in_window, list_filter_filter.
  apply filter_ext_in. intros r Hr.
  rewrite Forall_forall in Hv. rewrite (month_index_iff r k (Hv r Hr)). tauto.
Qed.

Lemma month_bins_between df r1 r2 (k : Z) :
  r1 ∈ df → r2 ∈ df →
  month_index (Order_Date r1) ≤ k ≤ month_index (Order_Date r2) →
  k ∈ month_bins df.
Proof.
  intros H1 H2 Hk. unfold month_bins.
  assert (Hin1 : month_index (Order_Date r1) ∈ (month_index ∘ Order_Date) <$> df).
  { apply list_elem_of_fmap. by exists r1. }
  assert (Hin2 : month_index (Order_Date r2) ∈ (month_index ∘ Order_Date) <$> df).
  { apply list_elem_of_fmap. by exists r2. }
  destruct (_ <$> df) as [|k0 ks]; [by apply elem_of_nil in Hin1|].
  apply elem_of_cons in Hin1, Hin2.
  apply foldr_min_max_bound in Hin1, Hin2.
  apply elem_of_seqZ. lia.
Qed.

(** X8.  Every point of the monthly series is dated on the last day of a
    calendar month, and its value is the grouped sum over the selected rows
    ordered in that month of that year.  The series has a point for every
    calendar month from the month of any selected row to the month of any
    other, also for a month in which no selected row was ordered; the value
    plotted for such a month is 0. *)
Theorem monthly_point_content df (start_date end_date : date) :
  Forall valid_month df →
  ∃ d, update_sales_dashboard df start_date end_date = Some d ∧
    Forall (λ pt,
      1 ≤ month pt.1 ≤ 12 ∧ day pt.1 = days_in_month (year pt.1) (month pt.1) ∧
      pt.2 = CSales (group_sum (Sales <$> filter (λ r,
               in_window_spec start_date end_date r ∧
               year (Order_Date r) = year pt.1 ∧ month (Order_Date r) = month pt.1) df)))
      (sales_fig d) ∧
    Forall (λ pt,
      pt.2 = CProfit (group_sum (Profit <$> filter (λ r,
               in_window_spec start_date end_date r ∧
               year (Order_Date r) = year pt.1 ∧ month (Order_Date r) = month pt.1) df)))
      (profit_fig d) ∧
    (∀ r1 r2 (y m : Z),
       r1 ∈ df → in_window_spec start_date end_date r1 →
       r2 ∈ df → in_window_spec start_date end_date r2 →
       1 ≤ m ≤ 12 →
       month_index (Order_Date r1) ≤ month_index (Date y m 1)
         ≤ month_index (Order_Date r2) →
       Date y m (days_in_month y m) ∈ (sales_fig d).*1 ∧
       (Forall (λ r, in_window_spec start_date end_date r →
                     ¬ (year (Order_Date r) = y ∧ month (Order_Date r) = m)) df →
        (Date y m (days_in_month y m), CSales dzero) ∈ sales_fig d ∧
        (Date y m (days_in_month y m), CProfit dzero) ∈ profit_fig d)).
Proof.
  intros Hv. eexists. split; [apply update_sales_dashboard_eq|].
  cbn [sales_fig profit_fig]. unfold groupby_month.
  rewrite <-!list_fmap_compose. split; [|split].
  - apply Forall_fmap, Forall_forall. intros k _. unfold compose. cbn [fst snd].
    unfold sum_Sales. rewrite (month_bin_rows df _ _ k Hv). split; [|done].
    unfold month_end. cbn [month]. Z.div_mod_to_equations. lia.
  - apply Forall_fmap, Forall_forall. intros k _. unfold compose. cbn [fst snd].
    unfold sum_Profit. by rewrite (month_bin_rows df _ _ k Hv).
  - intros r1 r2 y m Hr1 Hw1 Hr2 Hw2 Hm Hbetween.
    set (f := boolean_index (in_window start_date end_date) df).
    assert (Hk : month_index (Date y m 1) ∈ month_bins f).
    { apply (month_bins_between f r1 r2); [| |done];
        unfold f; rewrite boolean_index_in_window; by apply list_elem_of_filter. }
    assert (Hend : month_end (month_index (Date y m 1)) = Date y m (days_in_month y m)).
    { unfold month_end, month_index. cbn [year month].
      assert ((y * 12 + (m - 1)) `div` 12 = y) as -> by (Z.div_mod_to_equations; lia).
      assert ((y * 12 + (m - 1)) `mod` 12 + 1 = m) as -> by (Z.div_mod_to_equations; lia).
      done. }
    split.
    + apply list_elem_of_fmap. exists (month_index (Date y m 1)). by rewrite <-Hend.
    + intros Hnone.
      assert (Hempty : filter (λ r, month_index (Order_Date r) = month_index (Date y m 1)) f
                       = []).
      { unfold f. rewrite (month_bin_rows df _ _ _ Hv), Hend. cbn [year month].
        apply filter_none. eapply Forall_impl; [exact Hnone|]. intros r Hr. cbn beta in Hr. tauto. }
      split; apply list_elem_of_fmap; exists (month_index (Date y m 1));
        (split; [|done]); unfold compose; cbn [fst snd];
        unfold sum_Sales, sum_Profit; rewrite Hempty, Hend; csimpl;
        by rewrite group_sum_nil.
Qed.

(** ** Independence of the row order *)

Lemma nunique_Permutation `{Countable A} (l l' : list A) :
  l ≡ₚ l' → nunique l = nunique l'.
Proof. intros Hp. rewrite !nunique_size. f_equal. by apply list_to_set_perm_L. Qed.

Lemma foldr_min_in (k : Z) (ks : list Z) : foldr Z.min k ks ∈ k :: ks.
Proof.
  induction ks as [|a ks IH]; csimpl; [left|].
  destruct (Z.min_spec a (foldr Z.min k ks)) as [[_ ->]|[_ ->]].
  - right. left.
  - apply elem_of_cons in IH as [->|IH]; [left|right; by right].
Qed.

Lemma foldr_max_in (k : Z) (ks : list Z) : foldr Z.max k ks ∈ k :: ks.
Proof.
  induction ks as [|a ks IH]; csimpl; [left|].
  destruct (Z.max_spec a (foldr Z.max k ks)) as [[_ ->]|[_ ->]].
  - apply elem_of_cons in IH as [->|IH]; [left|right; by right].
  - right. left.
Qed.

Lemma foldr_min_max_Permutation (k k' : Z) (ks ks' : list Z) :
  k :: ks ≡ₚ k' :: ks' →
  foldr Z.min k ks = foldr Z.min k' ks' ∧ foldr Z.max k ks = foldr Z.max k' ks'.
Proof.
  intros Hp.
  pose proof (foldr_min_in k ks) as H1. pose proof (foldr_min_in k' ks') as H2.
  pose proof (foldr_max_in k ks) as H3. pose proof (foldr_max_in k' ks') as H4.
  rewrite Hp in H1, H3. rewrite <-Hp in H2, H4.
  apply elem_of_cons, foldr_min_max_bound in H1, H2, H3, H4. lia.
Qed.

Lemma month_bins_Permutation df df' :
  df ≡ₚ df' → month_bins df = month_bins df'.
Proof.
  intros Hp. unfold month_bins.
  assert (Hl : (month_index ∘ Order_Date) <$> df ≡ₚ (month_index ∘ Order_Date) <$> df')
    by (by rewrite Hp).
  destruct (_ <$> df) as [|k ks], (_ <$> df') as [|k' ks'].
  - done.
  - by apply Permutation_nil_l in Hl.
  - by apply Permutation_nil_r in Hl.
  - destruct (foldr_min_max_Permutation _ _ _ _ Hl) as [-> ->]. done.
Qed.

(** X9.  The order of the rows of the data set does not change which
    orders are counted, which months are plotted, or which points the
    scatter shows. *)
Theorem sales_dashboard_row_order df df' (start_date end_date : date) :
  df ≡ₚ df' →
  ∃ d d', update_sales_dashboard df start_date end_date = Some d ∧
    update_sales_dashboard df' start_date end_date = Some d' ∧
    order_count d = order_count d' ∧
    (sales_fig d).*1 = (sales_fig d').*1 ∧
    (profit_fig d).*1 = (profit_fig d').*1 ∧
    discount_fig d ≡ₚ discount_fig d'.
Proof.
  intros Hp.
  assert (Hf : boolean_index (in_window start_date end_date) df ≡ₚ
               boolean_index (in_window start_date end_date) df').
  { unfold boolean_index. by rewrite Hp. }
  eexists _, _. split; [apply update_sales_dashboard_eq|].
  split; [apply update_sales_dashboard_eq|].
  cbn [order_count sales_fig profit_fig discount_fig].
  split; [apply nunique_Permutation; by rewrite Hf|].
  unfold groupby_month. rewrite (month_bins_Permutation _ _ Hf).
  rewrite <-!list_fmap_compose. do 2 (split; [done|]). by rewrite Hf.
Qed.

(** ** The regional charts *)

(** X10.  Whatever the metric, the bar chart that the callback returns has
    one bar per region of the data set, each region once, in ascending order
    of the region names. *)
Theorem region_bars_ordered df (metric : string) (d : RegionAnalysis) :
  metric ∈ region_metric_options →
  update_region_analysis df metric = Some d →
  NoDup (bar_fig d).*1 ∧
  Sorted (λ a b, Is_true (String.leb a b)) (bar_fig d).*1 ∧
  ∀ region, region ∈ (bar_fig d).*1 ↔ region ∈ Region <$> df.
Proof.
  intros Hm Hd.
  destruct (update_region_analysis_Some df metric d Hm Hd) as (_ & _ & -> & _).
  rewrite <-list_fmap_compose.
  change ((fst ∘ (λ kg : string * DataFrame, (kg.1, region_bar metric kg.2)))
            <$> groupby Region df) with (groupby Region df).*1.
  split; [apply NoDup_groupby_keys|].
  split; [apply (Sorted_groupby_keys Region df), string_leb_total|].
  intros region. by rewrite groupby_keys, elem_of_unique.
Qed.

(** X11.  The scatter that the callback returns has one point per pair of
    region and year occurring in the data set and no other; the point shows
    the grouped sums of the sales and of the profit of all rows of that
    region and year, and is sized by their margin. *)
Theorem region_scatter_totals df (metric : string) (d : RegionAnalysis) :
  metric ∈ region_metric_options →
  update_region_analysis df metric = Some d →
  (λ pt, (sp_region pt, sp_year pt)) <$> scatter_fig d
    ≡ₚ unique ((λ r, (Region r, Year r)) <$> df) ∧
  Forall (λ pt,
    let g := filter (λ r, (Region r, Year r) = (sp_region pt, sp_year pt)) df in
    g ≠ [] ∧ sp_sales pt = sum_Sales g ∧ sp_profit pt = sum_Profit g ∧
    sp_margin pt = group_margin g) (scatter_fig d).
Proof.
  intros Hm Hd.
  destruct (update_region_analysis_Some df metric d Hm Hd) as (_ & _ & _ & _ & ->).
  unfold scatter_points. rewrite <-!list_fmap_compose. split.
  - rewrite <-(groupby_keys (λ r, (Region r, Year r)) df).
    apply reflexive_eq, list_fmap_ext. by intros _ [[??]?] _.
  - apply Forall_fmap, Forall_forall. intros kg Hkg. unfold compose.
    cbn [sp_region sp_year sp_sales sp_profit sp_margin].
    rewrite <-surjective_pairing, <-(groupby_rows _ _ _ Hkg).
    split; [by eapply groupby_nonempty_groups|done].
Qed.

(** X13.  A metric that names no column of the regional frame makes the
    callback fail. *)
Theorem region_unknown_metric df (metric : string) :
  metric ∉ region_columns →
  update_region_analysis df metric = None.
Proof.
  intros Hm. unfold update_region_analysis.
  rewrite !set_margin_agg by not_a_name. cbn [mbind option_bind].
  by rewrite (xy_series_unknown metric _ Hm).
Qed.

(** ** The category charts *)

(** X14.  Only the set of selected categories matters: two selections that
    agree on the categories of the rows of the data set, whatever their
    order, repetitions or names that occur in no row, give the same result. *)
Theorem category_selection_as_set
    (sort : (SubRow → option cell) → list SubRow → list SubRow)
    df (categories categories' : list string) :
  Forall (λ r, Category r ∈ categories ↔ Category r ∈ categories') df →
  update_category_analysis sort df categories =
  update_category_analysis sort df categories'.
Proof.
  intros Hall. unfold update_category_analysis, boolean_index. f_equal.
  apply filter_ext_in. intros r Hr. rewrite Forall_forall in Hall.
  unfold isin. rewrite !bool_decide_spec. by apply Hall.
Qed.

(** X15.  The dropdown starts with every category of the data set selected,
    and with that selection the callback returns what its aggregation returns
    on the whole data set. *)
Theorem initial_categories_select_everything
    (sort : (SubRow → option cell) → list SubRow → list SubRow) df :
  update_category_analysis sort df (initial_categories df) = category_analysis sort df.
Proof.
  unfold update_category_analysis, initial_categories.
  rewrite boolean_index_all; [done|].
  apply Forall_forall. intros r Hr. apply bool_decide_eq_true, elem_of_unique.
  apply list_elem_of_fmap. by exists r.
Qed.

(** X16.  The category chart has one bar for each selected category that
    occurs in the data set, each once, in ascending order of the names. *)
Theorem category_bars_ordered
    (sort : (SubRow → option cell) → list SubRow → list SubRow)
    df (categories : list string) :
  sort_values_spec sort "Sales" (subcategory_sums (selected df categories)) →
  ∃ d, update_category_analysis sort df categories = Some d ∧
    NoDup (category_fig d).*1 ∧
    Sorted (λ a b, Is_true (String.leb a b)) (category_fig d).*1 ∧
    ∀ c, c ∈ (category_fig d).*1 ↔ c ∈ categories ∧ c ∈ Category <$> df.
Proof.
  intros [Hp _]. destruct (category_analysis_eq sort _ Hp) as (fig & _ & Heq).
  eexists. split; [exact Heq|]. cbn [category_fig].
  rewrite <-list_fmap_compose.
  change ((fst ∘ (λ kg : string * DataFrame, (kg.1, sum_Sales kg.2)))
            <$> groupby Category (selected df categories))
    with (groupby Category (selected df categories)).*1.
  split; [apply NoDup_groupby_keys|].
  split; [apply (Sorted_groupby_keys Category), string_leb_total|].
  intros c. by rewrite groupby_keys, elem_of_unique, selected_categories.
Qed.

(** X19.  The ten sub-categories kept are the best-selling ones: no
    sub-category left out sells more than one that is shown. *)
Theorem top10_dominates_the_rest
    (sort : (SubRow → option cell) → list SubRow → list SubRow)
    df (categories : list string) :
  sort_values_spec sort "Sales" (subcategory_sums (selected df categories)) →
  ∃ d, update_category_analysis sort df categories = Some d ∧
    ∀ shown left_out,
      shown ∈ rows (subcategory_data d) →
      left_out ∈ rows (subcategory_sums (selected df categories)) →
      left_out ∉ rows (subcategory_data d) →
      desc_by (get (subcategory_data d) "Sales") shown left_out.
Proof.
  intros [Hp Hs]. destruct (category_analysis_eq sort _ Hp) as (fig & _ & Heq).
  eexists. split; [exact Heq|]. cbn [subcategory_data].
  intros shown left_out Hshown Hin Hout.
  rewrite top10_rows in Hshown, Hout.
  change (get (top10 sort (selected df categories)) "Sales")
    with (get (subcategory_sums (selected df categories)) "Sales").
  apply (Sorted_StronglySorted_on _
    (λ row, ∃ x : S, get (subcategory_sums (selected df categories)) "Sales" row
                     = Some (CSales x))) in Hs.
  - rewrite <-Hp, <-(take_drop 10 (sort _ _)) in Hin.
    apply elem_of_app in Hin as [Hin|Hin]; [done|].
    rewrite <-(take_drop 10 (sort _ _)) in Hs.
    exact (StronglySorted_app_1_elem_of _ _ _ _ _ Hs Hshown Hin).
  - intros x y z. apply desc_by_trans.
  - rewrite Hp. apply subcategory_sums_Sales.
Qed.

(** X20.  The top chart shows ten sub-categories, or all of them when the
    selected rows have fewer than ten; in that case none is dropped. *)
Theorem top10_length
    (sort : (SubRow → option cell) → list SubRow → list SubRow)
    df (categories : list string) :
  sort_values_spec sort "Sales" (subcategory_sums (selected df categories)) →
  ∃ d, update_category_analysis sort df categories = Some d ∧
    length (subcategory_fig d) =
      (10 `min` nunique (by_subcategory <$> selected df categories))%nat ∧
    ((nunique (by_subcategory <$> selected df categories) ≤ 10)%nat →
       rows (subcategory_data d) ≡ₚ rows (treemap_data d)).
Proof.
  intros [Hp _]. destruct (category_analysis_eq sort _ Hp) as (fig & Hfig & Heq).
  eexists. split; [exact Heq|]. cbn [subcategory_fig subcategory_data treemap_data].
  assert (Hlen : length (sort (get (subcategory_sums (selected df categories)) "Sales")
                              (rows (subcategory_sums (selected df categories)))) =
                 nunique (by_subcategory <$> selected df categories)).
  { rewrite Hp, subcategory_sums_rows. unfold nunique.
    rewrite length_fmap, <-(length_fmap fst), groupby_keys. done. }
  split.
  - unfold xy_series in Hfig.
    assert (has_column (top10 sort (selected df categories)) "Sales" = true) as Hc by done.
    rewrite Hc in Hfig. apply length_mapM in Hfig.
    rewrite <-Hfig, top10_rows, length_take, Hlen. done.
  - intros Hle. rewrite top10_rows, take_ge by lia. done.
Qed.

End properties.

(** ** Routing *)

(** X1.  The router shows the regional page exactly for the path
    "/region", the category page exactly for "/category", and the sales
    dashboard for every other path, a missing one included. *)
Theorem display_page_spec (pathname : option string) :
  (display_page pathname = region_layout ↔ pathname = Some "/region") ∧
  (display_page pathname = category_layout ↔ pathname = Some "/category") ∧
  (display_page pathname = sales_layout ↔
     pathname ≠ Some "/region" ∧ pathname ≠ Some "/category").
Proof.
  unfold display_page.
  destruct (decide (pathname = Some "/region")) as [->|Hr].
  - repeat split; try done. by intros [? _].
  - destruct (decide (pathname = Some "/category")) as [->|Hc].
    + repeat split; try done. by intros [_ ?].
    + repeat split; done.
Qed.

(** X2.  Every page is reached from the navigation bar: the regional and
    the category page by exactly one link each, the sales dashboard by two,
    the brand and the first nav link. *)
Theorem navbar_reaches_every_page (page : Layout) :
  let links := filter (λ link, display_page (Some link.2) = page) (navbar_links navbar) in
  links ≠ [] ∧
  (page ≠ sales_layout → length links = 1%nat) ∧
  (page = sales_layout →
     links = [("Supermart Grocery Dashboard", "/"); ("Sales Dashboard", "/")]).
Proof. by destruct page. Qed.

(** * The callbacks on the sample data *)

(** The worked example: January 2023 over the two Apple rows. *)
Example january_dashboard :
  ∃ d, update_sales_dashboard january (Date 2023 1 1) (Date 2023 1 31) = Some d ∧
    total_sales d = 150 ∧
    total_profit d = float_of_Z 30 ∧
    avg_profit_margin d = float_of_Z 20 ∧
    order_count d = 1%nat ∧
    (sales_fig d).*1 = [Date 2023 1 31].
Proof.
  eexists. split; [apply update_sales_dashboard_eq|]. by vm_compute.
Qed.

(** The product with 100 is rounded: a margin of 7 in 100 comes out as the
    float next above 7. *)
Example margin_is_rounded :
  margin_of (float_of_Z 7) (float_of_Z 100) = S754_finite false 7881299347898369 (-50) ∧
  float_of_Z 7 = S754_finite false 7881299347898368 (-50).
Proof. by vm_compute. Qed.

(** The East region sold nothing at a profit: its margin is an infinity,
    which plotly accepts as a marker size. *)
Example east_margin :
  ∃ d, update_region_analysis quarter "Margin" = Some d ∧
    bar_title d = "Profit Margin (%) by Region" ∧
    bar_fig d !! 0%nat = Some ("East", CFloat pinf).
Proof. eexists. split; [by vm_compute|done]. Qed.

(** A metric that is no column of the regional frame makes plotly raise,
    also on an empty frame; the name of the key column is accepted. *)
Example unknown_metric :
  update_region_analysis quarter "Discount" = None ∧
  update_region_analysis ([] : list SalesRow) "Discount" = None ∧
  (bar_fig <$> update_region_analysis quarter "Region") =
    Some [("East", CStr "East"); ("South", CStr "South"); ("West", CStr "West")].
Proof. by vm_compute. Qed.

(** With ties left in the order of the input, Apple stays ahead of Banana. *)
Example stable_top10 :
  ∃ d, update_category_analysis (nargsort_desc input_rank) quarter
         ["Fruit"; "Vegetables"] = Some d ∧
    (subcategory_fig d).*1 =
      [("Fruit", "Apple"); ("Fruit", "Banana"); ("Vegetables", "Kale")].
Proof. eexists. split; [by vm_compute|done]. Qed.

(** ** Where the claims as stated fail *)

(** C1, as stated, fails on integer sales that exceed the range of [int64]
    together: the two selected rows sell 2^63 - 1 and 1, and the total
    reported is -2^63, not their sum. *)
Lemma sales_total_wraps :
  ∃ d, update_sales_dashboard bulk_orders (Date 2023 1 1) (Date 2023 1 31) = Some d ∧
    filter (in_window_spec (Date 2023 1 1) (Date 2023 1 31)) bulk_orders = bulk_orders ∧
    total_sales d = -9223372036854775808 ∧
    exact_sum (Sales <$> bulk_orders) = 9223372036854775808 ∧
    total_sales d ≠ exact_sum (Sales <$> bulk_orders) ∧
    avg_profit_margin d = fzero.
Proof. eexists. split; [apply update_sales_dashboard_eq|]. by vm_compute. Qed.

(** C2, as stated, fails on decimal sales: with 2^53 sold in January and
    twice 1 in February, the monthly values are 2^53 and 2, which add up to
    2^53 + 2, while the total of the window is 2^53. *)
Lemma monthly_sums_miss_total :
  ∃ d, update_sales_dashboard wholesale_orders (Date 2023 1 1) (Date 2023 12 31) = Some d ∧
    total_sales d = float_of_Z 9007199254740992 ∧
    sales_fig d = [(Date 2023 1 31, CSales (float_of_Z 9007199254740992));
                   (Date 2023 2 28, CSales (float_of_Z 2))] ∧
    series_sum [float_of_Z 9007199254740992; float_of_Z 2] = float_of_Z 9007199254740994 ∧
    float_of_Z 9007199254740994 ≠ total_sales d.
Proof. eexists. split; [apply update_sales_dashboard_eq|]. by vm_compute. Qed.

(** C5, as stated, fails on the same data: the bars of the two regions are
    2^53 and 2, which add up to 2^53 + 2, while the sales of the data set
    add up to 2^53. *)
Lemma region_bars_miss_total :
  ∃ d, update_region_analysis wholesale_orders "Sales" = Some d ∧
    bar_fig d = [("East", CSales (float_of_Z 9007199254740992));
                 ("West", CSales (float_of_Z 2))] ∧
    series_sum [float_of_Z 9007199254740992; float_of_Z 2] = float_of_Z 9007199254740994 ∧
    series_sum (Sales <$> wholesale_orders) = float_of_Z 9007199254740992 ∧
    series_sum [float_of_Z 9007199254740992; float_of_Z 2]
      ≠ series_sum (Sales <$> wholesale_orders).
Proof. eexists. split; [by vm_compute|]. by vm_compute. Qed.

(** C7, as stated, fails on the order of equal rows.  Of the twenty snack
    rows the ten that sell 50 are the top ten; a sort that meets the promise
    of [sort_values] on every frame of sums returns them from S20 down to
    S02, which grouping produced in the other order. *)
Lemma top10_ties_not_kept :
  (∀ f : list SalesRow,
     sort_values_spec (nargsort_desc reverse_rank) "Sales" (subcategory_sums f)) ∧
  (∃ d, update_category_analysis (nargsort_desc reverse_rank) snacks ["Snacks"] = Some d ∧
     (subcategory_fig d).*1.*2 =
       ["S20"; "S18"; "S16"; "S14"; "S12"; "S10"; "S08"; "S06"; "S04"; "S02"]) ∧
  ¬ top10_keeps_ties (nargsort_desc reverse_rank) snacks ["Snacks"].
Proof.
  split; [apply nargsort_desc_spec|]. split.
  { eexists. split; [by vm_compute|done]. }
  intros Hclaim.
  destruct (update_category_analysis (nargsort_desc reverse_rank) snacks ["Snacks"])
    as [d|] eqn:Hd; [|by vm_compute in Hd].
  destruct (Hclaim d Hd) as (_ & _ & _ & Hties).
  vm_compute in Hd. injection Hd as <-.
  edestruct (Hties 0%nat 1%nat) as (i' & j' & Hi & Hj & Hlt);
    [reflexivity|reflexivity|lia|reflexivity|].
  vm_compute in Hi, Hj.
  do 19 (destruct i' as [|i']; [by simpl in Hi|]).
  do 19 (destruct j' as [|j']; [lia|]).
  destruct j'; by simpl in Hj.
Qed.


(** C9, as stated, fails on both halves.  A group without sales and without
    profit has the margin NaN, and nothing reaches the output: plotly refuses
    NaN as a marker size and the callback raises, whatever the metric.  A
    group with sales of 1 and the largest float as profit has an infinite
    margin although its sales are not 0. *)
Lemma undefined_margin_raises :
  (∃ g, groupby (λ r, (Region r, Year r)) [giveaway] = [("North", 2023, g)] ∧
        group_sum (Sales <$> g) = 0 ∧ group_margin g = S754_nan) ∧
  Forall (λ metric, update_region_analysis [giveaway] metric = None)
         region_metric_options ∧
  (∃ d, update_region_analysis [windfall] "Margin" = Some d ∧
        rows (region_data d) =
          [("North", [CSales 1; CProfit (S754_finite false 9007199254740991 971);
                      CFloat pinf])]).
Proof.
  split; [exists [giveaway]; by vm_compute|]. split.
  { unfold region_metric_options.
    repeat (apply Forall_cons; split; [by vm_compute|]). apply Forall_nil_2. }
  eexists. split; [by vm_compute|done].
Qed.

(** ** Instances of the conditional theorems *)

Lemma monthly_buckets_conserve_totals_witness :
  ExactSums int64 ∧
  ∃ d vs, update_sales_dashboard quarter (Date 2023 1 1) (Date 2023 3 31) = Some d ∧
    (sales_fig d).*2 = CSales <$> vs ∧ series_sum vs = total_sales d.
Proof.
  split; [exact int64_exact|].
  destruct (monthly_buckets_conserve_totals quarter (Date 2023 1 1) (Date 2023 3 31))
    as (d & buckets & Hd & _ & _ & Hs & _ & _ & _ & Hsum & _).
  exists d, ((λ b, group_sum (Sales <$> b.2)) <$> buckets).
  split; [exact Hd|]. split; [|exact (Hsum int64_exact)].
  rewrite Hs, <-!list_fmap_compose. reflexivity.
Defined.

Lemma zero_sales_zero_margin_witness :
  is_zero (series_sum (Sales <$> boolean_index
             (in_window (Date 2023 3 1) (Date 2023 3 31)) quarter)) = true ∧
  ∃ d, update_sales_dashboard quarter (Date 2023 3 1) (Date 2023 3 31) = Some d ∧
    is_zero (total_sales d) = true ∧ avg_profit_margin d = fzero.
Proof.
  assert (H0 : is_zero (series_sum (Sales <$> boolean_index
                 (in_window (Date 2023 3 1) (Date 2023 3 31)) quarter)) = true).
  { vm_compute. reflexivity. }
  split; [exact H0|].
  apply (zero_sales_zero_margin quarter (Date 2023 3 1) (Date 2023 3 31) H0).
Defined.

Lemma empty_window_empty_dashboard_witness :
  date_lt (Date 2023 1 31) (Date 2023 2 1) ∧
  update_sales_dashboard quarter (Date 2023 2 1) (Date 2023 1 31) = Some empty_dashboard.
Proof.
  assert (H : date_lt (Date 2023 1 31) (Date 2023 2 1)).
  { unfold date_lt. simpl. lia. }
  split; [exact H|].
  apply (empty_window_empty_dashboard quarter (Date 2023 2 1) (Date 2023 1 31)).
  left. exact H.
Defined.

Lemma region_bars_sum_to_total_witness :
  "Sales" ∈ region_metric_options ∧
  marker_sizes_valid quarter ∧
  (marker_sizes_valid quarter → is_Some (update_region_analysis quarter "Sales")) ∧
  ∀ d, update_region_analysis quarter "Sales" = Some d →
    (bar_fig d).*1 ≡ₚ unique (Region <$> quarter) ∧
    (∀ region v, (region, v) ∈ bar_fig d →
       region ∈ Region <$> quarter ∧
       v = region_bar "Sales" (filter (λ r, Region r = region) quarter)) ∧
    ("Sales" = "Sales" → ExactSums int64 →
       ∃ vs, (bar_fig d).*2 = CSales <$> vs ∧
             series_sum vs = series_sum (Sales <$> quarter)) ∧
    ("Sales" = "Profit" → ExactSums float64 →
       ∃ vs, (bar_fig d).*2 = CProfit <$> vs ∧
             series_sum vs = series_sum (Profit <$> quarter)).
Proof.
  assert (H1 : "Sales" ∈ region_metric_options).
  { by repeat constructor. }
  assert (H2 : marker_sizes_valid quarter).
  { apply (bool_decide_unpack _). vm_compute. exact I. }
  split; [exact H1|]. split; [exact H2|].
  apply (region_bars_sum_to_total quarter "Sales" H1).
Defined.

Lemma category_full_and_empty_selection_witness :
  Forall (λ r, Category r ∈ unique (Category <$> quarter)) quarter ∧
  sort_values_spec (nargsort_desc input_rank) "Sales" (subcategory_sums quarter) ∧
  sort_values_spec (nargsort_desc input_rank) "Sales" (subcategory_sums ([] : list SalesRow)) ∧
  (∃ d, category_analysis (nargsort_desc input_rank) quarter = Some d ∧
        update_category_analysis (nargsort_desc input_rank) quarter
          (unique (Category <$> quarter)) = Some d) ∧
  update_category_analysis (nargsort_desc input_rank) quarter []
    = Some empty_category_analysis.
Proof.
  assert (H1 : Forall (λ r, Category r ∈ unique (Category <$> quarter)) quarter).
  { vm_compute. by repeat constructor. }
  assert (H2 : sort_values_spec (nargsort_desc input_rank) "Sales"
                 (subcategory_sums quarter)).
  { vm_compute. split; by repeat constructor. }
  assert (H3 : sort_values_spec (nargsort_desc input_rank) "Sales"
                 (subcategory_sums ([] : list SalesRow))).
  { vm_compute. split; constructor. }
  split; [exact H1|]. split; [exact H2|]. split; [exact H3|].
  apply (category_full_and_empty_selection (nargsort_desc input_rank) quarter
           (unique (Category <$> quarter)) H1 H2 H3).
Defined.

Lemma top10_subcategories_witness :
  ∃ d, update_category_analysis (nargsort_desc reverse_rank) snacks ["Snacks"] = Some d ∧
    (length (rows (subcategory_data d)) ≤ 10)%nat ∧
    Sorted (λ a b, Is_true (desc_by (get (subcategory_data d) "Sales") a b))
           (rows (subcategory_data d)) ∧
    rows (subcategory_data d) ⊆ rows (subcategory_sums (selected snacks ["Snacks"])) ∧
    Forall (λ row, row.2 =
       [sum_Sales (filter (λ r, by_subcategory r = row.1) (selected snacks ["Snacks"]))])
      (rows (subcategory_data d)) ∧
    xy_series "Sales" (subcategory_data d) = Some (subcategory_fig d).
Proof.
  apply (top10_subcategories reverse_rank snacks ["Snacks"]).
Defined.


Lemma region_margin_unguarded_witness :
  "Margin" ∈ region_metric_options ∧
  (¬ marker_sizes_valid quarter → update_region_analysis quarter "Margin" = None) ∧
  ∀ d, update_region_analysis quarter "Margin" = Some d →
    (rows (region_data d)).*1 ≡ₚ unique (Region <$> quarter) ∧
    Forall (unguarded_margin Region quarter (region_data d)) (rows (region_data d)) ∧
    (rows (regional_perf d)).*1 ≡ₚ unique ((λ r, (Region r, Year r)) <$> quarter) ∧
    Forall (unguarded_margin (λ r, (Region r, Year r)) quarter (regional_perf d))
           (rows (regional_perf d)) ∧
    ("Margin" = "Margin" →
       mapM (get (region_data d) "Margin") (rows (region_data d)) =
       Some (bar_fig d).*2) ∧
    mapM (get (regional_perf d) "Margin") (rows (regional_perf d)) =
      Some (CFloat ∘ sp_margin <$> scatter_fig d) ∧
    Forall (λ pt, Is_true (valid_marker_size (sp_margin pt)) ∧
                  (is_finite (sp_margin pt) = false → sp_margin pt = pinf))
           (scatter_fig d).
Proof.
  assert (H : "Margin" ∈ region_metric_options).
  { by repeat constructor. }
  split; [exact H|].
  apply (region_margin_unguarded quarter "Margin" H).
Defined.

Lemma scatter_independent_of_metric_witness :
  "Sales" ∈ region_metric_options ∧ "Margin" ∈ region_metric_options ∧
  scatter_fig <$> update_region_analysis quarter "Sales" =
    scatter_fig <$> update_region_analysis quarter "Margin" ∧
  regional_perf <$> update_region_analysis quarter "Sales" =
    regional_perf <$> update_region_analysis quarter "Margin" ∧
  region_data <$> update_region_analysis quarter "Sales" =
    region_data <$> update_region_analysis quarter "Margin" ∧
  (∀ d1, update_region_analysis quarter "Sales" = Some d1 →
     xy_series "Sales" (region_data d1) = Some (bar_fig d1)) ∧
  (∀ d2, update_region_analysis quarter "Margin" = Some d2 →
     xy_series "Margin" (region_data d2) = Some (bar_fig d2)).
Proof.
  assert (H1 : "Sales" ∈ region_metric_options).
  { by repeat constructor. }
  assert (H2 : "Margin" ∈ region_metric_options).
  { by repeat constructor. }
  split; [exact H1|]. split; [exact H2|].
  apply (scatter_independent_of_metric quarter "Sales" "Margin" H1 H2).
Defined.

Lemma initial_range_selects_everything_witness :
  quarter ≠ [] ∧
  ∃ s e d, initial_date_range quarter = Some (s, e) ∧
    update_sales_dashboard quarter s e = Some d ∧
    total_sales d = series_sum (Sales <$> quarter) ∧
    total_profit d = series_sum (Profit <$> quarter) ∧
    order_count d = nunique (Order_ID <$> quarter) ∧
    discount_fig d = (λ r, (Discount r, Sales r, Category r)) <$> quarter.
Proof.
  assert (H : quarter ≠ []) by done.
  split; [exact H|]. apply (initial_range_selects_everything quarter H).
Defined.

Lemma order_count_monotone_witness :
  date_le (Date 2023 1 1) (Date 2023 1 16) ∧
  date_le (Date 2023 1 31) (Date 2023 3 31) ∧
  ∃ d d', update_sales_dashboard quarter (Date 2023 1 16) (Date 2023 1 31) = Some d ∧
    update_sales_dashboard quarter (Date 2023 1 1) (Date 2023 3 31) = Some d' ∧
    (order_count d ≤ order_count d')%nat.
Proof.
  assert (H1 : date_le (Date 2023 1 1) (Date 2023 1 16)).
  { unfold date_le. simpl. lia. }
  assert (H2 : date_le (Date 2023 1 31) (Date 2023 3 31)).
  { unfold date_le. simpl. lia. }
  split; [exact H1|]. split; [exact H2|].
  apply (order_count_monotone quarter (Date 2023 1 16) (Date 2023 1 31)
           (Date 2023 1 1) (Date 2023 3 31) H1 H2).
Defined.

Lemma monthly_point_content_witness :
  Forall valid_month winter ∧
  ∃ d, update_sales_dashboard winter (Date 2023 1 1) (Date 2023 12 31) = Some d ∧
    Forall (λ pt,
      1 ≤ month pt.1 ≤ 12 ∧ day pt.1 = days_in_month (year pt.1) (month pt.1) ∧
      pt.2 = CSales (group_sum (Sales <$> filter (λ r,
               in_window_spec (Date 2023 1 1) (Date 2023 12 31) r ∧
               year (Order_Date r) = year pt.1 ∧ month (Order_Date r) = month pt.1)
               winter)))
      (sales_fig d) ∧
    Forall (λ pt,
      pt.2 = CProfit (group_sum (Profit <$> filter (λ r,
               in_window_spec (Date 2023 1 1) (Date 2023 12 31) r ∧
               year (Order_Date r) = year pt.1 ∧ month (Order_Date r) = month pt.1)
               winter)))
      (profit_fig d) ∧
    (∀ (r1 r2 : SalesRow) (y m : Z),
       r1 ∈ winter → in_window_spec (Date 2023 1 1) (Date 2023 12 31) r1 →
       r2 ∈ winter → in_window_spec (Date 2023 1 1) (Date 2023 12 31) r2 →
       1 ≤ m ≤ 12 →
       month_index (Order_Date r1) ≤ month_index (Date y m 1)
         ≤ month_index (Order_Date r2) →
       Date y m (days_in_month y m) ∈ (sales_fig d).*1 ∧
       (Forall (λ r, in_window_spec (Date 2023 1 1) (Date 2023 12 31) r →
                     ¬ (year (Order_Date r) = y ∧ month (Order_Date r) = m)) winter →
        (Date y m (days_in_month y m), CSales dzero) ∈ sales_fig d ∧
        (Date y m (days_in_month y m), CProfit dzero) ∈ profit_fig d)).
Proof.
  assert (H : Forall valid_month winter).
  { apply (bool_decide_unpack _). vm_compute. exact I. }
  split; [exact H|].
  apply (monthly_point_content winter (Date 2023 1 1) (Date 2023 12 31) H).
Defined.

(** February, in which nothing was ordered, is plotted with 0. *)
Example february_is_plotted :
  ∃ d, update_sales_dashboard winter (Date 2023 1 1) (Date 2023 12 31) = Some d ∧
    sales_fig d = [(Date 2023 1 31, CSales 100); (Date 2023 2 28, CSales 0);
                   (Date 2023 3 31, CSales 0)].
Proof. eexists. split; [apply update_sales_dashboard_eq|]. by vm_compute. Qed.

Lemma sales_dashboard_row_order_witness :
  [apple_15; apple_20] ≡ₚ [apple_20; apple_15] ∧
  ∃ d d',
    update_sales_dashboard [apple_15; apple_20] (Date 2023 1 1) (Date 2023 1 31) = Some d ∧
    update_sales_dashboard [apple_20; apple_15] (Date 2023 1 1) (Date 2023 1 31) = Some d' ∧
    order_count d = order_count d' ∧
    (sales_fig d).*1 = (sales_fig d').*1 ∧
    (profit_fig d).*1 = (profit_fig d').*1 ∧
    discount_fig d ≡ₚ discount_fig d'.
Proof.
  assert (H : [apple_15; apple_20] ≡ₚ [apple_20; apple_15]).
  { apply Permutation_swap. }
  split; [exact H|].
  apply (sales_dashboard_row_order [apple_15; apple_20] [apple_20; apple_15]
           (Date 2023 1 1) (Date 2023 1 31) H).
Defined.

Lemma region_bars_ordered_witness :
  "Margin" ∈ region_metric_options ∧
  ∃ d, update_region_analysis quarter "Margin" = Some d ∧
    NoDup (bar_fig d).*1 ∧
    Sorted (λ a b, Is_true (String.leb a b)) (bar_fig d).*1 ∧
    ∀ region, region ∈ (bar_fig d).*1 ↔ region ∈ Region <$> quarter.
Proof.
  assert (H1 : "Margin" ∈ region_metric_options).
  { by repeat constructor. }
  assert (H2 : ∃ d, update_region_analysis quarter "Margin" = Some d).
  { eexists. vm_compute. reflexivity. }
  split; [exact H1|]. destruct H2 as [d H2]. exists d. split; [exact H2|].
  apply (region_bars_ordered quarter "Margin" d H1 H2).
Defined.

Lemma region_scatter_totals_witness :
  "Profit" ∈ region_metric_options ∧
  ∃ d, update_region_analysis quarter "Profit" = Some d ∧
    (λ pt, (sp_region pt, sp_year pt)) <$> scatter_fig d
      ≡ₚ unique ((λ r, (Region r, Year r)) <$> quarter) ∧
    Forall (λ pt,
      let g := filter (λ r, (Region r, Year r) = (sp_region pt, sp_year pt)) quarter in
      g ≠ [] ∧ sp_sales pt = sum_Sales g ∧ sp_profit pt = sum_Profit g ∧
      sp_margin pt = group_margin g) (scatter_fig d).
Proof.
  assert (H1 : "Profit" ∈ region_metric_options).
  { by repeat constructor. }
  assert (H2 : ∃ d, update_region_analysis quarter "Profit" = Some d).
  { eexists. vm_compute. reflexivity. }
  split; [exact H1|]. destruct H2 as [d H2]. exists d. split; [exact H2|].
  apply (region_scatter_totals quarter "Profit" d H1 H2).
Defined.

Lemma region_unknown_metric_witness :
  ("Discount" ∉ region_columns) ∧
  update_region_analysis quarter "Discount" = None.
Proof.
  assert (H1 : "Discount" ∉ region_columns).
  { unfold region_columns. rewrite !not_elem_of_cons.
    repeat split; try done. apply not_elem_of_nil. }
  split; [exact H1|].
  apply (region_unknown_metric quarter "Discount" H1).
Defined.

Lemma category_selection_as_set_witness :
  Forall (λ r, Category r ∈ ["Fruit"; "Bread"] ↔ Category r ∈ ["Fruit"; "Fruit"])
    quarter ∧
  update_category_analysis (nargsort_desc input_rank) quarter ["Fruit"; "Bread"] =
  update_category_analysis (nargsort_desc input_rank) quarter ["Fruit"; "Fruit"].
Proof.
  assert (H : Forall (λ r : SalesRow, Category r ∈ ["Fruit"; "Bread"] ↔
                                 Category r ∈ ["Fruit"; "Fruit"]) quarter).
  { apply (bool_decide_unpack _). vm_compute. exact I. }
  split; [exact H|].
  apply (category_selection_as_set (nargsort_desc input_rank) quarter
           ["Fruit"; "Bread"] ["Fruit"; "Fruit"] H).
Defined.

Lemma category_bars_ordered_witness :
  sort_values_spec (nargsort_desc input_rank) "Sales"
    (subcategory_sums (selected quarter ["Fruit"; "Vegetables"])) ∧
  ∃ d, update_category_analysis (nargsort_desc input_rank) quarter
         ["Fruit"; "Vegetables"] = Some d ∧
    NoDup (category_fig d).*1 ∧
    Sorted (λ a b, Is_true (String.leb a b)) (category_fig d).*1 ∧
    ∀ c, c ∈ (category_fig d).*1 ↔
         c ∈ ["Fruit"; "Vegetables"] ∧ c ∈ Category <$> quarter.
Proof.
  assert (H : sort_values_spec (nargsort_desc input_rank) "Sales"
                (subcategory_sums (selected quarter ["Fruit"; "Vegetables"]))).
  { vm_compute. split; by repeat constructor. }
  split; [exact H|].
  apply (category_bars_ordered (nargsort_desc input_rank) quarter
           ["Fruit"; "Vegetables"] H).
Defined.

Lemma top10_dominates_the_rest_witness :
  sort_values_spec (nargsort_desc reverse_rank) "Sales"
    (subcategory_sums (selected (quarter ++ snacks) ["Fruit"; "Snacks"])) ∧
  ∃ d, update_category_analysis (nargsort_desc reverse_rank) (quarter ++ snacks)
         ["Fruit"; "Snacks"] = Some d ∧
    ∀ shown left_out,
      shown ∈ rows (subcategory_data d) →
      left_out ∈ rows (subcategory_sums (selected (quarter ++ snacks) ["Fruit"; "Snacks"])) →
      left_out ∉ rows (subcategory_data d) →
      desc_by (get (subcategory_data d) "Sales") shown left_out.
Proof.
  assert (H : sort_values_spec (nargsort_desc reverse_rank) "Sales"
                (subcategory_sums (selected (quarter ++ snacks) ["Fruit"; "Snacks"]))).
  { apply (bool_decide_unpack _). vm_compute. exact I. }
  split; [exact H|].
  apply (top10_dominates_the_rest (nargsort_desc reverse_rank) (quarter ++ snacks)
           ["Fruit"; "Snacks"] H).
Defined.

Lemma top10_length_witness :
  sort_values_spec (nargsort_desc input_rank) "Sales"
    (subcategory_sums (selected snacks ["Snacks"])) ∧
  ∃ d, update_category_analysis (nargsort_desc input_rank) snacks ["Snacks"] = Some d ∧
    length (subcategory_fig d) =
      (10 `min` nunique (by_subcategory <$> selected snacks ["Snacks"]))%nat ∧
    ((nunique (by_subcategory <$> selected snacks ["Snacks"]) ≤ 10)%nat →
       rows (subcategory_data d) ≡ₚ rows (treemap_data d)).
Proof.
  assert (H : sort_values_spec (nargsort_desc input_rank) "Sales"
                (subcategory_sums (selected snacks ["Snacks"]))).
  { apply (bool_decide_unpack _). vm_compute. exact I. }
  split; [exact H|].
  apply (top10_length (nargsort_desc input_rank) snacks ["Snacks"] H).
Defined.
